(** * jug.hooks.exit_checks: exit conditions for the task-execution loop

    A shallow embedding of [jug/hooks/exit_checks.py].  Every factory of the
    module registers one closure with the hook registry of [jug.hooks]; the
    closures are later called by the scheduler with the task that is about
    to run, or that has just run.

    Python state is threaded explicitly: a [World] holds the hook registry,
    the closure cells and list objects allocated by the factories, the
    clock, the file system and the process environment.  An exception is a
    value of [exn]; [sys.exit(status)] raises [SystemExit status], which is
    how the process terminates.

    A Python [float] is a binary64 number, with the arithmetic of
    [SpecFloat]; a Python [int] is an integer of [Z].  What the builtin
    [int] makes of a string depends on the interpreter (its Unicode tables,
    its limit on the number of digits), so it is a variable of the
    development, [int_of_str]. *)

From Stdlib Require Import ZArith Ascii String List.
From Stdlib Require Import Floats.SpecFloat.
From stdpp Require Import base option list strings gmap.

Local Open Scope string_scope.
Local Open Scope list_scope.
Local Open Scope Z_scope.

(** ** Values *)

(** A task is opaque to the module: only its identity matters. *)
Definition Task : Type := nat.

(** Python exceptions that the module can meet.  [SystemExit] is what
    [sys.exit] raises; [OverflowError] is what the conversion of an [int]
    that is too large for a [float] raises; [UserError] stands for whatever
    else a caller's function raises. *)
Inductive exn : Type :=
| SystemExit (status : Z)
| TypeError
| ValueError
| OverflowError
| KeyError
| NameError
| RecursionError
| UserError (tag : nat).

(** The result of evaluating a Python expression or statement. *)
Inductive result (A : Type) : Type :=
| Ok (a : A)
| Raise (e : exn).
Arguments Ok {A} a.
Arguments Raise {A} e.

#[global] Instance result_ret : MRet result := fun A a => Ok a.

#[global] Instance result_bind : MBind result := fun A B k r =>
  match r with
  | Ok a => k a
  | Raise e => Raise e
  end.

(** A function supplied by the caller of [exit_when_true].  It is known by
    what a call with a given argument list does: return a value, of which
    only the truth value is observed, or raise.  What the function does to
    the world besides is not part of the model. *)
Record UserFn : Type := {
  fn_name : string;
  fn_call : list Task -> result bool
}.

(** A location of the store. *)
Definition loc : Type := nat.

(** What the variable [f] of [exit_when_true] can be bound to: the
    caller's function, or the function [lambda t : f()], whose free
    variable [f] is the cell of the enclosing call. *)
Inductive pyfunc : Type :=
| Given (u : UserFn)
| Lambda_t_f (f : loc).

(** ** Numbers *)

(** A [float]: a binary64 number, infinities and NaN included. *)
Definition float : Type := spec_float.

Definition fadd (x y : float) : float := SFadd 53 1024 x y.

Definition fmul (x y : float) : float := SFmul 53 1024 x y.

(** [x >= y] on floats; false when one of them is NaN. *)
Definition fge (x y : float) : bool := SFleb y x.

(** The conversion of an [int] to a [float], as arithmetic between the two
    makes it: rounded to the nearest float, ties to even, and an
    [OverflowError] when that is beyond the largest float. *)
Definition float_of_int (z : Z) : result float :=
  match binary_normalize 53 1024 z 0 false with
  | S754_infinity _ => Raise OverflowError
  | x => Ok x
  end.

(** The type [Number] of the module: an [int] or a [float]. *)
Inductive Number : Type :=
| PyInt (z : Z)
| PyFloat (x : float).

(** [x + y] for a float [x]. *)
Definition float_add (x : float) (y : Number) : result float :=
  match y with
  | PyInt z => y' ← float_of_int z; mret (fadd x y')
  | PyFloat y' => mret (fadd x y')
  end.

(** [k * y] for an int [k]. *)
Definition int_mul (k : Z) (y : Number) : result Number :=
  match y with
  | PyInt z => mret (PyInt (k * z))
  | PyFloat y' => k' ← float_of_int k; mret (PyFloat (fmul k' y'))
  end.

(** Truth value of a Python [int]. *)
Definition truthy (z : Z) : bool := negb (Z.eqb z 0).

(** The closures that the factories hand to the registry, each with the
    variables it captures. *)
Inductive Closure : Type :=
| check_file (fname : string)
| exit_when (f : loc)
| exit_after (executed : loc) (n : Z)
| check_time (deadline : float).

(** ** The world *)

Record World : Type := {
  registry : list (string * Closure); (* jug.hooks: registered callbacks *)
  cells : list pyfunc;                (* cells of the variable [f] *)
  lists : list Z;                     (* the one-element lists [executed] *)
  clock : float;                      (* what time.time() returns now *)
  path_exists : string -> bool;       (* os.path.exists *)
  os_environ : gmap string string;    (* os.environ *)
  calls : list (UserFn * list Task)   (* calls made to callers' functions *)
}.

Definition set_registry (r : list (string * Closure)) (w : World) : World :=
  {| registry := r; cells := cells w; lists := lists w; clock := clock w;
     path_exists := path_exists w; os_environ := os_environ w;
     calls := calls w |}.

Definition set_cells (c : list pyfunc) (w : World) : World :=
  {| registry := registry w; cells := c; lists := lists w; clock := clock w;
     path_exists := path_exists w; os_environ := os_environ w;
     calls := calls w |}.

Definition set_lists (l : list Z) (w : World) : World :=
  {| registry := registry w; cells := cells w; lists := l; clock := clock w;
     path_exists := path_exists w; os_environ := os_environ w;
     calls := calls w |}.

Definition set_calls (c : list (UserFn * list Task)) (w : World) : World :=
  {| registry := registry w; cells := cells w; lists := lists w;
     clock := clock w; path_exists := path_exists w;
     os_environ := os_environ w; calls := c |}.

(** ** Computations *)

(** A computation reads and updates the world and returns or raises.  The
    effects made before an exception stay. *)
Definition M (A : Type) : Type := World -> result A * World.

Definition raise {A} (e : exn) : M A := fun w => (Raise e, w).

#[global] Instance M_ret : MRet M := fun A a w => (Ok a, w).

#[global] Instance M_bind : MBind M := fun A B k m w =>
  match m w with
  | (Ok a, w') => k a w'
  | (Raise e, w') => (Raise e, w')
  end.

Definition gets {A} (f : World -> A) : M A := fun w => (Ok (f w), w).

Definition modify (f : World -> World) : M unit := fun w => (Ok tt, f w).

(** The value or the exception of an expression that has no effect. *)
Definition lift {A} (r : result A) : M A := fun w => (r, w).

(** [if b: m], a conditional without an else branch. *)
Definition when (b : bool) (m : M unit) : M unit :=
  if b then m else mret tt.

(** ** Builtins and the standard library *)

(** [sys.exit(status)]. *)
Definition exit (status : Z) : M unit := raise (SystemExit status).

(** [time.time()]. *)
Definition time : M float := gets clock.

(** [os.path.exists(p)]. *)
Definition os_path_exists (p : string) : M bool :=
  gets (fun w => path_exists w p).

(** [key in environ] and [environ[key]] for a mapping of strings. *)
Definition contains (environ : gmap string string) (key : string) : bool :=
  bool_decide (is_Some (environ !! key)).

Definition getitem (environ : gmap string string) (key : string) : M string :=
  match environ !! key with
  | Some v => mret v
  | None => raise KeyError
  end.

(** ** A reader of decimal literals *)

(** One interpreter's [int] on a string, for the examples: ASCII text is
    read, in base ten, as CPython 3.11 and later do with their defaults.
    White space around the literal is dropped, one sign may come first,
    digits may be separated by single underscores, and there are at most
    4300 digits.  The properties below do not depend on it: they are
    proved for every [int_of_str]. *)
Definition is_space (a : ascii) : bool :=
  let n := nat_of_ascii a in
  ((9 <=? n)%nat && (n <=? 13)%nat) || (n =? 32)%nat.

Definition digit_of (a : ascii) : option Z :=
  let n := nat_of_ascii a in
  if ((48 <=? n)%nat && (n <=? 57)%nat)%bool
  then Some (Z.of_nat n - 48) else None.

Fixpoint lstrip (s : string) : string :=
  match s with
  | String a r => if is_space a then lstrip r else s
  | EmptyString => s
  end.

Fixpoint all_space (s : string) : bool :=
  match s with
  | String a r => is_space a && all_space r
  | EmptyString => true
  end.

Fixpoint digit_count (s : string) : nat :=
  match s with
  | String a r =>
      match digit_of a with Some _ => 1 | None => 0 end + digit_count r
  | EmptyString => 0
  end.

(** Digits of a literal; [after_digit] tells whether the previous
    character was a digit, which an underscore and the end both need. *)
Fixpoint digits (acc : Z) (after_digit : bool) (s : string) : option Z :=
  match s with
  | EmptyString => if after_digit then Some acc else None
  | String a r =>
      match digit_of a with
      | Some d => digits (10 * acc + d) true r
      | None =>
          if after_digit then
            if Ascii.eqb a "_"%char then digits acc false r
            else if all_space s then Some acc else None
          else None
      end
  end.

Definition parse_int (s : string) : option Z :=
  if (4300 <? digit_count s)%nat then None
  else match lstrip s with
       | String "+"%char r => digits 0 false r
       | String "-"%char r => Z.opp <$> digits 0 false r
       | r => digits 0 false r
       end.

(** A string of white space in the wider sense of [str.isspace]: the
    bytes 9 to 13 and 28 to 32. *)
Definition is_blank (a : ascii) : bool :=
  let n := nat_of_ascii a in
  ((9 <=? n)%nat && (n <=? 13)%nat) || ((28 <=? n)%nat && (n <=? 32)%nat).

Fixpoint all_blank (s : string) : bool :=
  match s with
  | String a r => is_blank a && all_blank r
  | EmptyString => true
  end.

Section Interpreter.

(** What the builtin [int] makes of a string: the integer it reads, or
    nothing when it raises a [ValueError]. *)
Variable int_of_str : string -> option Z.

(** [int(s)] for a string [s]. *)
Definition int (s : string) : M Z :=
  match int_of_str s with
  | Some z => mret z
  | None => raise ValueError
  end.

(** ** The store *)

(** The variable [f] of a call of [exit_when_true] is read by the nested
    functions, so it lives in a cell, which they share. *)
Definition new_cell (v : pyfunc) : M loc :=
  fun w => (Ok (length (cells w)), set_cells (cells w ++ [v]) w).

Definition load_cell (l : loc) : M pyfunc :=
  fun w => match cells w !! l with
           | Some v => (Ok v, w)
           | None => (Raise NameError, w)
           end.

Definition store_cell (l : loc) (v : pyfunc) : M unit :=
  modify (fun w => set_cells (<[l := v]> (cells w)) w).

(** The list [executed = [0]] of a call of [exit_after_n_tasks]: a list
    object with one element. *)
Definition new_list (v : Z) : M loc :=
  fun w => (Ok (length (lists w)), set_lists (lists w ++ [v]) w).

Definition load_item (l : loc) : M Z :=
  fun w => match lists w !! l with
           | Some v => (Ok v, w)
           | None => (Raise NameError, w)
           end.

Definition store_item (l : loc) (v : Z) : M unit :=
  modify (fun w => set_lists (<[l := v]> (lists w)) w).

(** ** Calls *)

(** A call of a caller's function is recorded with its arguments. *)
Definition call_user (u : UserFn) (args : list Task) : M bool :=
  modify (fun w => set_calls (calls w ++ [(u, args)]) w);;
  match fn_call u args with
  | Ok b => mret b
  | Raise e => raise e
  end.

(** A call of [fn] on [args], where [depth] bounds the nesting of calls as the
    interpreter's recursion limit does.  [lambda t : f()] takes exactly
    one argument, and its body reads [f] from the cell when it runs. *)
Fixpoint call (depth : nat) (fn : pyfunc) (args : list Task) : M bool :=
  match depth with
  | O => raise RecursionError
  | S d =>
      match fn with
      | Given u => call_user u args
      | Lambda_t_f f =>
          match args with
          | [_t] => g ← load_cell f; call d g []
          | _ => raise TypeError
          end
      end
  end.

(** The bodies of the four nested functions, called with a task. *)
Definition call_closure (depth : nat) (c : Closure) (t : Task) : M unit :=
  match c with
  | check_file fname =>
      b ← os_path_exists fname;
      when b (exit 0)
  | exit_when f =>
      g ← load_cell f;
      b ← call depth g [t];
      when b (exit 0)
  | exit_after executed n =>
      x ← load_item executed;
      store_item executed (x + 1);;
      y ← load_item executed;
      when (n <=? y) (exit 0)
  | check_time deadline =>
      now ← time;
      when (fge now deadline) (exit 0)
  end.

(** ** The hook registry of [jug.hooks] *)

(** Modelled from the spec: [jug.hooks.register_hook], which is not part
    of this module.  It never fails and keeps the callback, after the ones
    already registered, for the life of the process. *)
Definition register_hook (name : string) (f : Closure) : M unit :=
  modify (fun w => set_registry (registry w ++ [(name, f)]) w).

(** Modelled from the spec: the dispatch of an event by the scheduler.
    The callbacks registered under the name are called in registration
    order with the task; an exception leaves the dispatch. *)
Fixpoint call_each (depth : nat) (cs : list Closure) (t : Task) : M unit :=
  match cs with
  | [] => mret tt
  | c :: cs' => call_closure depth c t;; call_each depth cs' t
  end.

Definition hooks_for (name : string) (r : list (string * Closure))
  : list Closure :=
  map snd (List.filter (fun p => String.eqb (fst p) name) r).

Definition jug_hook (depth : nat) (name : string) (t : Task) : M unit :=
  r ← gets registry;
  call_each depth (hooks_for name r) t.

(** ** The factories *)

Definition exit_if_file_exists (fname : string) : M unit :=
  register_hook "execute.task-pre-execute" (check_file fname).

(** The parameter [f] is read by the lambda and by [exit_when], so it is
    a cell, [f_cell], that holds the caller's function on entry.  The
    assignment [f = lambda t : f()] stores the lambda in that same cell. *)
Definition exit_when_true (f : UserFn) (function_takes_Task : bool) : M unit :=
  f_cell ← new_cell (Given f);
  when (negb function_takes_Task) (store_cell f_cell (Lambda_t_f f_cell));;
  register_hook "execute.task-executed1" (exit_when f_cell).

Definition exit_after_n_tasks (n : Z) : M unit :=
  executed ← new_list 0;
  register_hook "execute.task-executed1" (exit_after executed n).

(** The clock gives a float, so [deadline] is a float throughout; each
    [+=] converts an int operand, which can overflow. *)
Definition exit_after_time (hours minutes seconds : Number) : M unit :=
  deadline ← time;
  deadline ← lift (float_add deadline seconds);
  m ← lift (int_mul 60 minutes);
  deadline ← lift (float_add deadline m);
  h ← lift (int_mul (60 * 60) hours);
  deadline ← lift (float_add deadline h);
  register_hook "execute.task-executed1" (check_time deadline).

Definition exit_env_vars (environ : option (gmap string string)) : M unit :=
  environ ← match environ with
             | None => gets os_environ
             | Some e => mret e
             end;
  when (contains environ "JUG_MAX_TASKS")
    (s ← getitem environ "JUG_MAX_TASKS";
     n ← int s;
     exit_after_n_tasks n);;
  let hours := 0 in
  let minutes := 0 in
  let seconds := 0 in
  hours ← (if contains environ "JUG_MAX_HOURS"
            then s ← getitem environ "JUG_MAX_HOURS"; int s
            else mret hours);
  minutes ← (if contains environ "JUG_MAX_MINUTES"
              then s ← getitem environ "JUG_MAX_MINUTES"; int s
              else mret minutes);
  seconds ← (if contains environ "JUG_MAX_SECONDS"
              then s ← getitem environ "JUG_MAX_SECONDS"; int s
              else mret seconds);
  when (truthy hours || truthy minutes || truthy seconds)
    (exit_after_time (PyInt hours) (PyInt minutes) (PyInt seconds));;
  when (contains environ "JUG_EXIT_IF_FILE_EXISTS")
    (s ← getitem environ "JUG_EXIT_IF_FILE_EXISTS";
     exit_if_file_exists s).

(** ** Events *)

(** The scheduler fires an event for a task at some moment: the clock
    shows [ev_time] and the file system is [ev_files]. *)
Record Event : Type := {
  ev_time : float;
  ev_files : string -> bool;
  ev_task : Task
}.

Definition at_event (ev : Event) (w : World) : World :=
  {| registry := registry w; cells := cells w; lists := lists w;
     clock := ev_time ev; path_exists := ev_files ev;
     os_environ := os_environ w; calls := calls w |}.

(** A callback is called at each event of a list, until it raises: the
    number of calls made, the result of the last one, and the world. *)
Fixpoint run_events (depth : nat) (c : Closure) (evs : list Event) (w : World)
  : nat * result unit * World :=
  match evs with
  | [] => (O, Ok tt, w)
  | ev :: evs' =>
      match call_closure depth c (ev_task ev) (at_event ev w) with
      | (Ok _, w') =>
          let '(k, r, w'') := run_events depth c evs' w' in (S k, r, w'')
      | (Raise e, w') => (1%nat, Raise e, w')
      end
  end.

(** The position of the first event at which [p] holds. *)
Fixpoint first_event (p : Event -> bool) (evs : list Event) : option nat :=
  match evs with
  | [] => None
  | ev :: evs' => if p ev then Some O else S <$> first_event p evs'
  end.

(** ** Observations *)

(** The callbacks registered between two worlds. *)
Definition installed (w w' : World) : list (string * Closure) :=
  drop (length (registry w)) (registry w').

Definition is_file_marker (c : Closure) : bool :=
  match c with check_file _ => true | _ => false end.

Definition is_predicate (c : Closure) : bool :=
  match c with exit_when _ => true | _ => false end.

Definition is_counter (c : Closure) : bool :=
  match c with exit_after _ _ => true | _ => false end.

Definition is_deadline (c : Closure) : bool :=
  match c with check_time _ => true | _ => false end.

Definition watchers (kind : Closure -> bool) (r : list (string * Closure))
  : list (string * Closure) :=
  List.filter (fun p => kind (snd p)) r.

(** The process terminates with the given status. *)
Definition terminates {A} (status : Z) (r : result A) : Prop :=
  r = Raise (SystemExit status).

(** An empty world at a given clock reading. *)
Definition world0 (now : float) : World :=
  {| registry := []; cells := []; lists := []; clock := now;
     path_exists := fun _ => false; os_environ := ∅; calls := [] |}.

(** The float of an integer that is not too large, for clock readings. *)
Definition flt (z : Z) : float := binary_normalize 53 1024 z 0 false.

(** ** The deadline *)

(** The value of [now + seconds + 60*minutes + 3600*hours], as Python
    evaluates it for a float [now]: from left to right, the products
    before the sums they are in. *)
Definition deadline_value (now : float) (hours minutes seconds : Number)
  : result float :=
  d ← float_add now seconds;
  m ← int_mul 60 minutes;
  d ← float_add d m;
  h ← int_mul 3600 hours;
  float_add d h.

(** A deadline watcher is registered by the call at this world, and the
    callback terminates the process at the event, when it is the next
    one. *)
Definition exits_at_next_event (hours minutes seconds : Number) (w : World)
    (ev : Event) : Prop :=
  let w' := snd (exit_after_time hours minutes seconds w) in
  exists deadline,
    installed w w' = [("execute.task-executed1", check_time deadline)]
    /\ fst (run_events 8 (check_time deadline) [ev] w')
       = (1%nat, Raise (SystemExit 0)).

(** A call of a factory returns after one registration under the name. *)
Definition registers_once (m : M unit) (name : string) (w : World) : Prop :=
  exists c w', m w = (Ok tt, w') /\ registry w' = registry w ++ [(name, c)].

(** ** The environment, key by key *)

(** The keys that [exit_env_vars] reads as numbers. *)
Definition time_keys : list string :=
  ["JUG_MAX_HOURS"; "JUG_MAX_MINUTES"; "JUG_MAX_SECONDS"].

Definition numeric_keys : list string := "JUG_MAX_TASKS" :: time_keys.

(** The five keys that [exit_env_vars] looks up. *)
Definition recognized : list string :=
  numeric_keys ++ ["JUG_EXIT_IF_FILE_EXISTS"].

(** The key is set, to a string that [int] rejects. *)
Definition invalid (env : gmap string string) (key : string) : bool :=
  match env !! key with
  | Some s => match int_of_str s with None => true | Some _ => false end
  | None => false
  end.

(** The number a key stands for: what [int] makes of its value, and 0 when
    the key is not set. *)
Definition parsed (env : gmap string string) (key : string) : Z :=
  default 0 (env !! key ≫= int_of_str).

(** The key is not set, or is set to a string that [int] reads as 0. *)
Definition zero_or_absent (env : gmap string string) (key : string) : bool :=
  match env !! key with
  | Some s => match int_of_str s with Some 0 => true | _ => false end
  | None => true
  end.

(** Reading a key the way [exit_env_vars] does. *)
Definition read (env : gmap string string) (key : string) : result Z :=
  match env !! key with
  | Some s => match int_of_str s with Some z => Ok z | None => Raise ValueError end
  | None => Ok 0
  end.

(** The three stages of [exit_env_vars]. *)
Definition tasks_stage (env : gmap string string) (w : World)
  : result unit * World :=
  match env !! "JUG_MAX_TASKS" with
  | Some s =>
      match int_of_str s with
      | Some n => exit_after_n_tasks n w
      | None => (Raise ValueError, w)
      end
  | None => (Ok tt, w)
  end.

Definition time_stage (env : gmap string string) (w : World)
  : result unit * World :=
  match read env "JUG_MAX_HOURS" with
  | Raise e => (Raise e, w)
  | Ok hours =>
      match read env "JUG_MAX_MINUTES" with
      | Raise e => (Raise e, w)
      | Ok minutes =>
          match read env "JUG_MAX_SECONDS" with
          | Raise e => (Raise e, w)
          | Ok seconds =>
              if truthy hours || truthy minutes || truthy seconds
              then exit_after_time (PyInt hours) (PyInt minutes)
                     (PyInt seconds) w
              else (Ok tt, w)
          end
      end
  end.

Definition file_stage (env : gmap string string) (w : World)
  : result unit * World :=
  match env !! "JUG_EXIT_IF_FILE_EXISTS" with
  | Some p => exit_if_file_exists p w
  | None => (Ok tt, w)
  end.

(** The deadline that the three time keys stand for, at a clock reading:
    the float that [now + seconds + 60*minutes + 3600*hours] gives. *)
Definition env_deadline (env : gmap string string) (now : float)
  : result float :=
  deadline_value now (PyInt (parsed env "JUG_MAX_HOURS"))
    (PyInt (parsed env "JUG_MAX_MINUTES"))
    (PyInt (parsed env "JUG_MAX_SECONDS")).

(** What a call of [exit_env_vars] adds to the registry when nothing
    stops it, stage by stage. *)
Definition counter_entry (env : gmap string string) (w : World)
  : list (string * Closure) :=
  match env !! "JUG_MAX_TASKS" ≫= int_of_str with
  | Some n => [("execute.task-executed1", exit_after (length (lists w)) n)]
  | None => []
  end.

Definition deadline_entry (env : gmap string string) (w : World)
  : result (list (string * Closure)) :=
  if truthy (parsed env "JUG_MAX_HOURS") || truthy (parsed env "JUG_MAX_MINUTES")
     || truthy (parsed env "JUG_MAX_SECONDS")
  then d ← env_deadline env (clock w);
       mret [("execute.task-executed1", check_time d)]
  else mret [].

Definition file_entry (env : gmap string string) : list (string * Closure) :=
  match env !! "JUG_EXIT_IF_FILE_EXISTS" with
  | Some p => [("execute.task-pre-execute", check_file p)]
  | None => []
  end.

(** The list that [exit_env_vars] allocates for the counter watcher. *)
Definition counter_cell (env : gmap string string) : list Z :=
  match env !! "JUG_MAX_TASKS" ≫= int_of_str with
  | Some _ => [0]
  | None => []
  end.

(** The statement about the time keys, for one mapping: no deadline
    watcher when every time key is unset or reads as zero, and otherwise
    exactly one, for the three numbers together. *)
Definition one_deadline (env : gmap string string) (w : World) : Prop :=
  let w' := snd (exit_env_vars (Some env) w) in
  if forallb (zero_or_absent env) time_keys
  then watchers is_deadline (installed w w') = []
  else exists deadline,
         env_deadline env (clock w) = Ok deadline
         /\ watchers is_deadline (installed w w')
            = [("execute.task-executed1", check_time deadline)].




(** Whether the first event after [exit_env_vars] makes the counter
    watcher, or the deadline watcher, of the mapping terminate. *)
Definition tasks_hit (env : gmap string string) : bool :=
  match env !! "JUG_MAX_TASKS" ≫= int_of_str with
  | Some n => n <=? 1
  | None => false
  end.

Definition time_hit (env : gmap string string) (registered now : float)
  : bool :=
  negb (forallb (zero_or_absent env) time_keys)
  && match env_deadline env registered with
     | Ok deadline => fge now deadline
     | Raise _ => false
     end.

(** ** What calls keep *)

(** What no callback touches: the registry, the cells, the clock, the
    file system and the process environment. *)
Definition frame (w w' : World) : Prop :=
  registry w' = registry w /\ cells w' = cells w /\ clock w' = clock w
  /\ path_exists w' = path_exists w /\ os_environ w' = os_environ w.

(** What a factory does to the world: the registry, the cells and the
    lists grow at the end, and nothing else changes. *)
Definition extends (w w' : World) : Prop :=
  registry w `prefix_of` registry w' /\ cells w `prefix_of` cells w'
  /\ lists w `prefix_of` lists w' /\ clock w' = clock w
  /\ path_exists w' = path_exists w /\ os_environ w' = os_environ w
  /\ calls w' = calls w.

(** The list that a callback writes to, if any. *)
Definition counter_of (c : Closure) : option loc :=
  match c with
  | exit_after executed _ => Some executed
  | _ => None
  end.

(** The caller's function makes the callback stop at this event: it
    returns a true value, or it raises. *)
Definition stops (u : UserFn) (ev : Event) : bool :=
  match fn_call u [ev_task ev] with
  | Ok false => false
  | _ => true
  end.

(** What the callback of [exit_when_true] makes of a call of the caller's
    function with a task. *)
Definition outcome_of (u : UserFn) (t : Task) : result unit :=
  match fn_call u [t] with
  | Ok true => Raise (SystemExit 0)
  | Ok false => Ok tt
  | Raise e => Raise e
  end.

(** ** Sample values *)

(** A function that takes no argument and returns [True]. *)
Definition always_true : UserFn :=
  {| fn_name := "always_true";
     fn_call := fun args => match args with
                            | [] => Ok true
                            | _ => Raise TypeError
                            end |}.

(** A function that raises whatever it is called with. *)
Definition always_raises : UserFn :=
  {| fn_name := "always_raises"; fn_call := fun _ => Raise (UserError 1) |}.

(** Events at which no file exists. *)
Definition event0 : Event :=
  {| ev_time := flt 0; ev_files := fun _ => false; ev_task := O |}.

Definition event_at (now : float) : Event :=
  {| ev_time := now; ev_files := fun _ => false; ev_task := 7%nat |}.

(** The counter watcher with threshold [n], from an empty world, over a
    number of events: the calls made and the last result. *)
Definition counter_run (n : Z) (events : nat) : nat * result unit :=
  fst (run_events 8 (exit_after O n) (repeat event0 events)
         (snd (exit_after_n_tasks n (world0 (flt 0))))).
(** * Properties *)

(** ** The registry *)

Lemma installed_app w w' new :
  registry w' = registry w ++ new -> installed w w' = new.
Proof. intros H. unfold installed. rewrite H. apply drop_app_length. Qed.

Lemma hooks_for_snoc name name' c r :
  hooks_for name (r ++ [(name', c)])
  = hooks_for name r ++ (if String.eqb name' name then [c] else []).
Proof.
  unfold hooks_for. rewrite List.filter_app, map_app. cbn.
  by destruct (String.eqb name' name).
Qed.

(** A dispatch calls the callbacks of the event one after the other. *)
Lemma call_each_cons depth c cs t w :
  call_each depth (c :: cs) t w
  = match call_closure depth c t w with
    | (Ok _, w') => call_each depth cs t w'
    | (Raise e, w') => (Raise e, w')
    end.
Proof. reflexivity. Qed.

(** ** The file-marker watcher *)

Lemma check_file_run depth fname t w :
  call_closure depth (check_file fname) t w
  = (if path_exists w fname then Raise (SystemExit 0) else Ok tt, w).
Proof.
  cbn. unfold mbind, M_bind, os_path_exists, gets, when, exit, raise.
  by destruct (path_exists w fname).
Qed.

(** ** Callbacks that keep no state *)

Section Stateless.
Variables (depth : nat) (c : Closure) (p : Event -> bool).
Hypothesis c_run : forall ev w,
  call_closure depth c (ev_task ev) (at_event ev w)
  = (if p ev then Raise (SystemExit 0) else Ok tt, at_event ev w).

Lemma run_events_stateless evs w :
  fst (run_events depth c evs w)
  = match first_event p evs with
    | Some i => (S i, Raise (SystemExit 0))
    | None => (length evs, Ok tt)
    end.
Proof.
  revert w. induction evs as [|ev evs IH]; intros w; [done|].
  cbn [run_events first_event]. rewrite c_run.
  destruct (p ev); [done|].
  specialize (IH (at_event ev w)).
  destruct (run_events depth c evs (at_event ev w)) as [[k r] w''].
  cbn in IH |- *. destruct (first_event p evs); cbn; congruence.
Qed.

Lemma run_events_stateless_registry evs w :
  registry (snd (run_events depth c evs w)) = registry w.
Proof.
  revert w. induction evs as [|ev evs IH]; intros w; [done|].
  cbn [run_events]. rewrite c_run.
  destruct (p ev); [done|].
  specialize (IH (at_event ev w)).
  by destruct (run_events depth c evs (at_event ev w)) as [[k r] w''].
Qed.
End Stateless.

(** C4: the callback of [exit_if_file_exists p] is registered for the
    event fired before a task runs.  Called when [p] does not exist, it
    returns without raising and leaves the world, and so its own
    registration, as it was: the check is made again at the next event.
    Called when [p] exists, it terminates the process with status 0.  Over
    any sequence of events, the callback terminates at the first event at
    which [p] exists, and at none if there is no such event. *)
Theorem exit_if_file_exists_checks (p : string) (depth : nat) (w : World) :
  let w' := snd (exit_if_file_exists p w) in
  exit_if_file_exists p w = (Ok tt, w')
  /\ installed w w' = [("execute.task-pre-execute", check_file p)]
  /\ (forall t w1,
        call_closure depth (check_file p) t w1
        = (if path_exists w1 p then Raise (SystemExit 0) else Ok tt, w1))
  /\ (forall evs,
        fst (run_events depth (check_file p) evs w')
        = match first_event (fun ev => ev_files ev p) evs with
          | Some i => (S i, Raise (SystemExit 0))
          | None => (length evs, Ok tt)
          end)
  /\ (forall evs,
        registry (snd (run_events depth (check_file p) evs w')) = registry w').
Proof.
  cbn zeta. split; [done|]. split; [by apply installed_app|].
  split; [intros; apply check_file_run|].
  split; intros evs.
  - apply run_events_stateless. intros; apply check_file_run.
  - apply run_events_stateless_registry with (p := fun ev => ev_files ev p).
    intros; apply check_file_run.
Qed.

(** ** The counter watcher *)

Lemma exit_after_run depth l n t w x :
  lists w !! l = Some x ->
  call_closure depth (exit_after l n) t w
  = (if n <=? x + 1 then Raise (SystemExit 0) else Ok tt,
     set_lists (<[l := x + 1]> (lists w)) w).
Proof.
  intros Hx. cbn. unfold mbind, M_bind, load_item, store_item, modify.
  rewrite Hx. cbn.
  rewrite list_lookup_insert_eq by (by eapply lookup_lt_Some).
  unfold when, exit, raise. by destruct (n <=? x + 1).
Qed.

Lemma run_events_exit_after depth l n evs : forall w x,
  lists w !! l = Some x ->
  let '(k, r, w1) := run_events depth (exit_after l n) evs w in
  lists w1 !! l = Some (x + Z.of_nat k)
  /\ registry w1 = registry w
  /\ if x + Z.of_nat (length evs) <? Z.max (x + 1) n
     then k = length evs /\ r = Ok tt
     else x + Z.of_nat k = Z.max (x + 1) n /\ r = Raise (SystemExit 0).
Proof.
  induction evs as [|ev evs IH]; intros w x Hx.
  - cbn. rewrite Z.add_0_r. split; [done|]. split; [done|].
    destruct (Z.ltb_spec x (Z.max (x + 1) n)); [done | lia].
  - cbn [run_events length].
    rewrite (exit_after_run _ _ _ _ _ x) by done.
    assert (Hlen : (l < length (lists w))%nat) by (by eapply lookup_lt_Some).
    destruct (Z.leb_spec n (x + 1)) as [Hn|Hn].
    + cbn. rewrite list_lookup_insert_eq by done.
      split; [done|]. split; [done|].
      destruct (Z.ltb_spec (x + Z.of_nat (S (length evs)))
                  (Z.max (x + 1) n)); [lia|]. split; [lia | done].
    + specialize (IH (set_lists (<[l := x + 1]> (lists w)) (at_event ev w))
                    (x + 1)).
      destruct (run_events depth (exit_after l n) evs _) as [[k r] w1].
      destruct IH as (IH1 & IH2 & IH3).
      { cbn. by rewrite list_lookup_insert_eq. }
      split; [rewrite IH1; f_equal; lia|]. split; [done|].
      replace (Z.max (x + 1 + 1) n) with (Z.max (x + 1) n) in IH3 by lia.
      replace (x + 1 + Z.of_nat (length evs))
        with (x + Z.of_nat (S (length evs))) in IH3 by lia.
      destruct (x + Z.of_nat (S (length evs)) <? Z.max (x + 1) n).
      * destruct IH3; split; [lia | done].
      * destruct IH3; split; [lia | done].
Qed.

(** C2: the counter of [exit_after_n_tasks n] starts at 0 and every call
    of the callback adds exactly 1 to it, whatever its value and whether
    or not the call terminates the process.  Over any sequence of events
    the counter equals the number of calls made, and the callback
    terminates the process with status 0 at event number [max 1 n]: the
    first at which the counter is at least [n].  Before that event every
    call returns. *)
Theorem exit_after_n_tasks_counts (n : Z) (depth : nat) (w : World) :
  let w' := snd (exit_after_n_tasks n w) in
  let executed := length (lists w) in
  exit_after_n_tasks n w = (Ok tt, w')
  /\ installed w w' = [("execute.task-executed1", exit_after executed n)]
  /\ lists w' !! executed = Some 0
  /\ (forall t w1 x,
        lists w1 !! executed = Some x ->
        let '(r, w2) := call_closure depth (exit_after executed n) t w1 in
        lists w2 !! executed = Some (x + 1)
        /\ r = if n <=? x + 1 then Raise (SystemExit 0) else Ok tt)
  /\ (forall evs,
        let '(k, r, w1) := run_events depth (exit_after executed n) evs w' in
        lists w1 !! executed = Some (Z.of_nat k)
        /\ if Z.of_nat (length evs) <? Z.max 1 n
           then k = length evs /\ r = Ok tt
           else Z.of_nat k = Z.max 1 n /\ terminates 0 r).
Proof.
  cbn zeta.
  assert (H0 : lists (snd (exit_after_n_tasks n w)) !! length (lists w)
               = Some 0).
  { change (lists (snd (exit_after_n_tasks n w))) with (lists w ++ [0]).
    rewrite lookup_app_r by done. by rewrite Nat.sub_diag. }
  split; [done|]. split; [by apply installed_app|]. split; [done|].
  split.
  - intros t w1 x Hx. rewrite (exit_after_run _ _ _ _ _ x) by done.
    split; [|done]. cbn. apply list_lookup_insert_eq.
    by eapply lookup_lt_Some.
  - intros evs.
    pose proof (run_events_exit_after depth (length (lists w)) n evs _ 0 H0)
      as H.
    destruct (run_events depth _ evs _) as [[k r] w1].
    destruct H as (H1 & _ & H3). rewrite Z.add_0_l in H1, H3.
    split; [done|]. exact H3.
Qed.

Example counter_three :
  counter_run 3 1 = (1%nat, Ok tt) /\ counter_run 3 2 = (2%nat, Ok tt)
  /\ counter_run 3 3 = (3%nat, Raise (SystemExit 0))
  /\ counter_run 3 7 = (3%nat, Raise (SystemExit 0)).
Proof. repeat split; reflexivity. Qed.

Example counter_one_and_below :
  counter_run 1 1 = (1%nat, Raise (SystemExit 0))
  /\ counter_run 0 1 = (1%nat, Raise (SystemExit 0))
  /\ counter_run (-4) 1 = (1%nat, Raise (SystemExit 0)).
Proof. repeat split; reflexivity. Qed.

(** ** The deadline watcher *)

Lemma check_time_run depth deadline t w :
  call_closure depth (check_time deadline) t w
  = (if fge (clock w) deadline then Raise (SystemExit 0) else Ok tt, w).
Proof.
  cbn. unfold mbind, M_bind, time, gets, when, exit, raise.
  by destruct (fge (clock w) deadline).
Qed.

Lemma float_of_int_raises z e : float_of_int z = Raise e -> e = OverflowError.
Proof.
  unfold float_of_int. destruct (binary_normalize 53 1024 z 0 false); congruence.
Qed.

Lemma float_add_raises x y e : float_add x y = Raise e -> e = OverflowError.
Proof.
  destruct y as [z|y]; cbn; [|done].
  destruct (float_of_int z) eqn:E; cbn; [done|].
  intros [= <-]. by eapply float_of_int_raises.
Qed.

Lemma int_mul_raises k y e : int_mul k y = Raise e -> e = OverflowError.
Proof.
  destruct y as [z|y]; cbn; [done|].
  destruct (float_of_int k) eqn:E; cbn; [done|].
  intros [= <-]. by eapply float_of_int_raises.
Qed.

Lemma deadline_value_raises now hours minutes seconds e :
  deadline_value now hours minutes seconds = Raise e -> e = OverflowError.
Proof.
  unfold deadline_value.
  destruct (float_add now seconds) as [d1|e1] eqn:E1; cbn;
    [|intros [= <-]; by eapply float_add_raises].
  destruct (int_mul 60 minutes) as [m|e2] eqn:E2; cbn;
    [|intros [= <-]; by eapply int_mul_raises].
  destruct (float_add d1 m) as [d2|e3] eqn:E3; cbn;
    [|intros [= <-]; by eapply float_add_raises].
  destruct (int_mul 3600 hours) as [h|e4] eqn:E4; cbn;
    [|intros [= <-]; by eapply int_mul_raises].
  apply float_add_raises.
Qed.

(** The call reads the clock, computes the deadline and, if that does not
    raise, registers the callback with it. *)
Lemma exit_after_time_run hours minutes seconds w :
  exit_after_time hours minutes seconds w
  = match deadline_value (clock w) hours minutes seconds with
    | Ok deadline =>
        (Ok tt,
         set_registry
           (registry w ++ [("execute.task-executed1", check_time deadline)]) w)
    | Raise e => (Raise e, w)
    end.
Proof.
  unfold exit_after_time, deadline_value, time, gets, lift.
  unfold mbind, M_bind, result_bind. cbv beta iota.
  destruct (float_add (clock w) seconds) as [d1|e1]; [|done].
  destruct (int_mul 60 minutes) as [m|e2]; [|done].
  destruct (float_add d1 m) as [d2|e3]; [|done].
  change (60 * 60) with 3600.
  destruct (int_mul 3600 hours) as [h|e4]; [|done].
  by destruct (float_add d2 h) as [d3|e5].
Qed.

(** Adding the float of the int 0 changes no comparison. *)
Lemma fge_add_zero x y : fge y (fadd x (S754_zero false)) = fge y x.
Proof. by destruct x as [[|]|[|]| |[|] m e], y as [[|]|[|]| |[|] m' e']. Qed.

Lemma deadline_value_zero now :
  exists deadline,
    deadline_value now (PyInt 0) (PyInt 0) (PyInt 0) = Ok deadline
    /\ forall y, fge y deadline = fge y now.
Proof.
  eexists. split; [reflexivity|]. intros y.
  change (fge y (fadd (fadd (fadd now (S754_zero false)) (S754_zero false))
                   (S754_zero false)) = fge y now).
  by rewrite !fge_add_zero.
Qed.

(** C3: a call of [exit_after_time] reads the clock once and computes the
    deadline as the float [now + seconds + 60*minutes + 3600*hours].  If
    an int among the terms is too large for a float the call raises
    [OverflowError] and registers nothing; otherwise it registers one
    callback, which holds that deadline.  A call of the callback reads the
    clock again: it terminates the process with status 0 when the reading
    is at or after the deadline, and returns, changing nothing, when it is
    before.  Over a sequence of events it terminates at the first event at
    or after the deadline.  With all three parameters the int 0, the call
    returns, and the first event whose reading is not before the reading
    at registration terminates the process. *)
Theorem exit_after_time_deadline (hours minutes seconds : Number)
    (depth : nat) (w : World) :
  match deadline_value (clock w) hours minutes seconds with
  | Raise e =>
      e = OverflowError
      /\ exit_after_time hours minutes seconds w = (Raise OverflowError, w)
  | Ok deadline =>
      let w' := snd (exit_after_time hours minutes seconds w) in
      exit_after_time hours minutes seconds w = (Ok tt, w')
      /\ installed w w' = [("execute.task-executed1", check_time deadline)]
      /\ (forall t w1,
            call_closure depth (check_time deadline) t w1
            = (if fge (clock w1) deadline
               then Raise (SystemExit 0) else Ok tt, w1))
      /\ (forall evs,
            fst (run_events depth (check_time deadline) evs w')
            = match first_event (fun ev => fge (ev_time ev) deadline) evs with
              | Some i => (S i, Raise (SystemExit 0))
              | None => (length evs, Ok tt)
              end)
      /\ (forall evs,
            registry (snd (run_events depth (check_time deadline) evs w'))
            = registry w')
  end
  /\ (let w' := snd (exit_after_time (PyInt 0) (PyInt 0) (PyInt 0) w) in
      exists deadline,
        exit_after_time (PyInt 0) (PyInt 0) (PyInt 0) w = (Ok tt, w')
        /\ installed w w' = [("execute.task-executed1", check_time deadline)]
        /\ forall ev evs,
             fge (ev_time ev) (clock w) = true ->
             fst (run_events depth (check_time deadline) (ev :: evs) w')
             = (1%nat, Raise (SystemExit 0))).
Proof.
  split.
  - rewrite exit_after_time_run.
    destruct (deadline_value (clock w) hours minutes seconds) as [d|e] eqn:E.
    + cbn zeta. cbn [snd]. split; [done|]. split; [by apply installed_app|].
      split; [intros; apply check_time_run|]. split.
      * intros evs. apply run_events_stateless. intros; apply check_time_run.
      * intros evs.
        eapply run_events_stateless_registry
          with (p := fun ev => fge (ev_time ev) d).
        intros; apply check_time_run.
    + apply deadline_value_raises in E as ->. by split.
  - cbn zeta. rewrite exit_after_time_run.
    destruct (deadline_value_zero (clock w)) as (d & -> & Hd).
    exists d. cbn [snd]. split; [done|]. split; [by apply installed_app|].
    intros ev evs Hev. cbn [run_events]. rewrite check_time_run.
    cbn [clock at_event]. by rewrite Hd, Hev.
Qed.

(** ** One registration for each factory *)

Lemma exit_when_true_run u b w :
  exit_when_true u b w
  = (Ok tt,
     set_registry
       (registry w ++ [("execute.task-executed1", exit_when (length (cells w)))])
       (set_cells
          (cells w ++ [if b then Given u else Lambda_t_f (length (cells w))])
          w)).
Proof.
  unfold exit_when_true, mbind, M_bind, new_cell. destruct b; cbn.
  - reflexivity.
  - unfold set_registry, set_cells; cbn. do 2 f_equal.
    rewrite insert_app_r_alt by done. by rewrite Nat.sub_diag.
Qed.

(** C9: a call of [exit_if_file_exists], of [exit_when_true] or of
    [exit_after_n_tasks] returns after adding exactly one entry to the
    registry, after the entries that were there: the first under the name
    ["execute.task-pre-execute"], the other two under the name
    ["execute.task-executed1"].  A call of [exit_after_time] does the
    same, under ["execute.task-executed1"], when its deadline can be
    computed; when an int among the terms is too large for a float it
    raises [OverflowError] and the registry is as it was. *)
Theorem factories_register_once (w : World) :
  (forall p, exists w',
      exit_if_file_exists p w = (Ok tt, w')
      /\ registry w' = registry w ++ [("execute.task-pre-execute", check_file p)])
  /\ (forall u b, exists w',
      exit_when_true u b w = (Ok tt, w')
      /\ registry w'
         = registry w ++ [("execute.task-executed1", exit_when (length (cells w)))])
  /\ (forall n, exists w',
      exit_after_n_tasks n w = (Ok tt, w')
      /\ registry w'
         = registry w
           ++ [("execute.task-executed1", exit_after (length (lists w)) n)])
  /\ (forall hours minutes seconds,
      match deadline_value (clock w) hours minutes seconds with
      | Ok deadline =>
          exists w',
            exit_after_time hours minutes seconds w = (Ok tt, w')
            /\ registry w'
               = registry w
                 ++ [("execute.task-executed1", check_time deadline)]
      | Raise e =>
          e = OverflowError
          /\ exit_after_time hours minutes seconds w = (Raise OverflowError, w)
      end).
Proof.
  split; [|split; [|split]].
  - intros p. eexists. split; reflexivity.
  - intros u b. eexists. rewrite exit_when_true_run. split; reflexivity.
  - intros n. eexists. split; reflexivity.
  - intros h m s. rewrite exit_after_time_run.
    destruct (deadline_value (clock w) h m s) as [d|e] eqn:E.
    + eexists. split; reflexivity.
    + apply deadline_value_raises in E as ->. by split.
Qed.
(** ** The predicate watcher *)

Lemma exit_when_true_cell u b w :
  cells (snd (exit_when_true u b w)) !! length (cells w)
  = Some (if b then Given u else Lambda_t_f (length (cells w))).
Proof.
  rewrite exit_when_true_run. cbn.
  rewrite lookup_app_r by done. by rewrite Nat.sub_diag.
Qed.

(** The callback when the cell holds the caller's function. *)
Lemma exit_when_given_run depth f u t w :
  cells w !! f = Some (Given u) ->
  call_closure (S depth) (exit_when f) t w
  = (match fn_call u [t] with
     | Ok true => Raise (SystemExit 0)
     | Ok false => Ok tt
     | Raise e => Raise e
     end,
     set_calls (calls w ++ [(u, [t])]) w).
Proof.
  intros Hf. cbn. unfold mbind, M_bind, load_cell. rewrite Hf.
  unfold call_user, mbind, M_bind, modify.
  by destruct (fn_call u [t]) as [[|]|e].
Qed.

(** The callback when the cell holds [lambda t : f()]: the lambda is
    called with the task, reads the cell, finds itself, and calls itself
    with no argument. *)
Lemma exit_when_lambda_run depth f t w :
  cells w !! f = Some (Lambda_t_f f) ->
  call_closure depth (exit_when f) t w
  = (Raise match depth with
           | S (S _) => TypeError
           | _ => RecursionError
           end, w).
Proof.
  intros Hf. cbn. unfold mbind, M_bind, load_cell. rewrite Hf.
  destruct depth as [|[|depth]]; cbn; [done| |].
  - unfold mbind, M_bind, load_cell. by rewrite Hf.
  - unfold mbind, M_bind, load_cell. by rewrite Hf.
Qed.

Lemma exit_when_depth0_run f g t w :
  cells w !! f = Some g ->
  call_closure O (exit_when f) t w = (Raise RecursionError, w).
Proof.
  intros Hf. unfold call_closure, mbind, M_bind, load_cell. by rewrite Hf.
Qed.

(** With [function_takes_Task] true, every call of the callback calls the
    caller's function once, with the task of the event and nothing else;
    the process terminates with status 0 when the function returns a true
    value, and the callback returns when it returns a false one. *)
Lemma exit_when_true_with_task (u : UserFn) (depth : nat) (w w1 : World)
    (t : Task) :
  let w' := snd (exit_when_true u true w) in
  let f := length (cells w) in
  cells w1 !! f = cells w' !! f ->
  call_closure (S depth) (exit_when f) t w1
  = (match fn_call u [t] with
     | Ok true => Raise (SystemExit 0)
     | Ok false => Ok tt
     | Raise e => Raise e
     end,
     set_calls (calls w1 ++ [(u, [t])]) w1).
Proof.
  cbn zeta. rewrite exit_when_true_cell. apply exit_when_given_run.
Qed.

(** C1, what the code does with [function_takes_Task] false: the variable
    [f] is bound to [lambda t : f()] before the callback is made, so the
    lambda finds itself in [f].  Every call of the callback raises
    [TypeError]; the caller's function is never called (the record of
    calls is unchanged) and the process is not terminated. *)
Theorem exit_when_true_without_task (u : UserFn) (depth : nat) (w w1 : World)
    (t : Task) :
  let w' := snd (exit_when_true u false w) in
  let f := length (cells w) in
  cells w1 !! f = cells w' !! f ->
  call_closure (S (S depth)) (exit_when f) t w1 = (Raise TypeError, w1).
Proof.
  cbn zeta. rewrite exit_when_true_cell. apply exit_when_lambda_run.
Qed.

Example exit_when_true_default_flag :
  let w' := snd (exit_when_true always_true false (world0 (flt 0))) in
  registry w' = [("execute.task-executed1", exit_when O)]
  /\ cells w' = [Lambda_t_f O]
  /\ jug_hook 1000 "execute.task-executed1" 7%nat w' = (Raise TypeError, w').
Proof. repeat split; reflexivity. Qed.

(** C8: whatever [function_takes_Task] is, if a caller's function is
    called during a call of the callback and raises, the callback raises
    the same exception: nothing is caught, no value is put in its place and
    the process is not terminated by the watcher.  The registry, the cells
    and the counters are as they were before the call. *)
Theorem exit_when_propagates (u : UserFn) (b : bool) (depth : nat)
    (w w1 : World) (t : Task) :
  let w' := snd (exit_when_true u b w) in
  let f := length (cells w) in
  cells w1 !! f = cells w' !! f ->
  let '(r, w2) := call_closure depth (exit_when f) t w1 in
  forall u' args e,
    (u', args) ∈ drop (length (calls w1)) (calls w2) ->
    fn_call u' args = Raise e ->
    r = Raise e
    /\ registry w2 = registry w1 /\ cells w2 = cells w1 /\ lists w2 = lists w1.
Proof.
  cbn zeta. rewrite exit_when_true_cell. destruct b; intros Hf.
  - destruct depth as [|depth].
    + rewrite (exit_when_depth0_run _ (Given u)) by done.
      intros u' args e Hin. rewrite drop_all in Hin. by inversion Hin.
    + rewrite (exit_when_given_run _ _ u) by done.
      intros u' args e Hin Hraise. cbn in Hin.
      rewrite drop_app_length in Hin.
      apply list_elem_of_singleton in Hin. injection Hin as -> ->.
      by rewrite Hraise.
  - rewrite exit_when_lambda_run by done.
    intros u' args e Hin. rewrite drop_all in Hin. by inversion Hin.
Qed.

(** ** Reading the environment *)

Lemma contains_lookup env key :
  contains env key = match env !! key with Some _ => true | None => false end.
Proof.
  unfold contains. destruct (env !! key) as [s|].
  - apply bool_decide_eq_true. by exists s.
  - apply bool_decide_eq_false. by intros [? ?].
Qed.

Lemma read_run env key w :
  (if contains env key then s ← getitem env key; int s else mret 0) w
  = (read env key, w).
Proof.
  rewrite contains_lookup.
  unfold getitem, read, int, mbind, M_bind, mret, M_ret, raise.
  destruct (env !! key) as [s|]; [|done]. by destruct (int_of_str s).
Qed.

Lemma exit_env_vars_run env w :
  exit_env_vars (Some env) w
  = match tasks_stage env w with
    | (Raise e, w1) => (Raise e, w1)
    | (Ok _, w1) =>
        match time_stage env w1 with
        | (Raise e, w2) => (Raise e, w2)
        | (Ok _, w2) => file_stage env w2
        end
    end.
Proof.
  unfold exit_env_vars.
  unfold mbind at 1. unfold M_bind at 1. unfold mret at 1. unfold M_ret at 1.
  unfold mbind at 1. unfold M_bind at 1.
  assert (Ht : when (contains env "JUG_MAX_TASKS")
                 (s ← getitem env "JUG_MAX_TASKS"; n ← int s;
                  exit_after_n_tasks n) w
               = tasks_stage env w).
  { unfold when, tasks_stage. rewrite contains_lookup.
    unfold getitem, int, mbind, M_bind, mret, M_ret, raise.
    destruct (env !! "JUG_MAX_TASKS") as [s|]; [|done].
    cbv beta iota. destruct (int_of_str s); reflexivity. }
  rewrite Ht. destruct (tasks_stage env w) as [[[]|e] w1]; [|done].
  cbn zeta.
  unfold mbind at 1. unfold M_bind at 1. rewrite read_run.
  unfold time_stage. destruct (read env "JUG_MAX_HOURS") as [h|e]; [|done].
  unfold mbind at 1. unfold M_bind at 1. rewrite read_run.
  destruct (read env "JUG_MAX_MINUTES") as [m|e]; [|done].
  unfold mbind at 1. unfold M_bind at 1. rewrite read_run.
  destruct (read env "JUG_MAX_SECONDS") as [s|e]; [|done].
  unfold mbind at 1. unfold M_bind at 1. unfold when at 1.
  assert (Hf : forall w2,
             when (contains env "JUG_EXIT_IF_FILE_EXISTS")
               (s0 ← getitem env "JUG_EXIT_IF_FILE_EXISTS";
                exit_if_file_exists s0) w2
             = file_stage env w2).
  { intros w2. unfold when, file_stage. rewrite contains_lookup.
    unfold getitem, mbind, M_bind, mret, M_ret.
    destruct (env !! "JUG_EXIT_IF_FILE_EXISTS"); reflexivity. }
  destruct (truthy h || truthy m || truthy s).
  - destruct (exit_after_time (PyInt h) (PyInt m) (PyInt s) w1)
      as [[[]|e] w2]; [apply Hf | done].
  - apply Hf.
Qed.

(** Without an argument the process environment is read. *)
Lemma exit_env_vars_default w :
  exit_env_vars None w = exit_env_vars (Some (os_environ w)) w.
Proof. reflexivity. Qed.

Lemma tasks_stage_run env w :
  let '(r, w1) := tasks_stage env w in
  clock w1 = clock w
  /\ registry w1 = registry w ++ counter_entry env w
  /\ r = if invalid env "JUG_MAX_TASKS" then Raise ValueError else Ok tt.
Proof.
  unfold tasks_stage, counter_entry, invalid.
  destruct (env !! "JUG_MAX_TASKS") as [s|]; cbn.
  - destruct (int_of_str s); cbn; [done|]. by rewrite app_nil_r.
  - by rewrite app_nil_r.
Qed.

Lemma read_parsed env key :
  read env key
  = if invalid env key then Raise ValueError else Ok (parsed env key).
Proof.
  unfold read, invalid, parsed. destruct (env !! key) as [s|]; [|done].
  cbn. by destruct (int_of_str s).
Qed.

Lemma deadline_entry_raises env w e :
  deadline_entry env w = Raise e -> e = OverflowError.
Proof.
  unfold deadline_entry, env_deadline.
  destruct (truthy _ || truthy _ || truthy _); [|done].
  destruct (deadline_value _ _ _ _) eqn:E; cbn; [done|].
  intros [= <-]. by eapply deadline_value_raises.
Qed.

Lemma time_stage_run env w :
  let '(r, w1) := time_stage env w in
  if invalid env "JUG_MAX_HOURS" || invalid env "JUG_MAX_MINUTES"
     || invalid env "JUG_MAX_SECONDS"
  then r = Raise ValueError /\ w1 = w
  else match deadline_entry env w with
       | Ok entry => r = Ok tt /\ registry w1 = registry w ++ entry
       | Raise e => r = Raise OverflowError /\ w1 = w
       end.
Proof.
  unfold time_stage. rewrite !read_parsed.
  destruct (invalid env "JUG_MAX_HOURS"); [done|].
  destruct (invalid env "JUG_MAX_MINUTES"); [done|].
  destruct (invalid env "JUG_MAX_SECONDS"); [done|].
  cbn [orb]. unfold deadline_entry, env_deadline.
  destruct (truthy _ || truthy _ || truthy _);
    [|cbn; by rewrite app_nil_r].
  rewrite exit_after_time_run.
  destruct (deadline_value _ _ _ _) as [d|e] eqn:E; cbn; [done|].
  apply deadline_value_raises in E as ->. done.
Qed.

Lemma file_stage_run env w :
  let '(r, w1) := file_stage env w in
  r = Ok tt /\ registry w1 = registry w ++ file_entry env.
Proof.
  unfold file_stage, file_entry.
  destruct (env !! "JUG_EXIT_IF_FILE_EXISTS"); cbn; [done|].
  by rewrite app_nil_r.
Qed.

(** The result of [exit_env_vars] and what it registers, for every
    mapping. *)
Lemma exit_env_vars_installs env w :
  let '(r, w') := exit_env_vars (Some env) w in
  if invalid env "JUG_MAX_TASKS"
  then r = Raise ValueError /\ registry w' = registry w
  else if invalid env "JUG_MAX_HOURS" || invalid env "JUG_MAX_MINUTES"
          || invalid env "JUG_MAX_SECONDS"
  then r = Raise ValueError
       /\ registry w' = registry w ++ counter_entry env w
  else match deadline_entry env w with
       | Ok entry =>
           r = Ok tt
           /\ registry w'
              = registry w ++ counter_entry env w ++ entry ++ file_entry env
       | Raise _ =>
           r = Raise OverflowError
           /\ registry w' = registry w ++ counter_entry env w
       end.
Proof.
  rewrite exit_env_vars_run.
  pose proof (tasks_stage_run env w) as Ht.
  destruct (tasks_stage env w) as [r1 w1]. destruct Ht as (Hc & Hr & ->).
  destruct (invalid env "JUG_MAX_TASKS") eqn:Ei.
  { split; [done|]. rewrite Hr. unfold counter_entry, invalid in *.
    destruct (env !! "JUG_MAX_TASKS") as [s|]; [|done]. cbn.
    destruct (int_of_str s); [done|]. by rewrite app_nil_r. }
  pose proof (time_stage_run env w1) as Hm.
  destruct (time_stage env w1) as [r2 w2].
  destruct (invalid env "JUG_MAX_HOURS" || invalid env "JUG_MAX_MINUTES"
            || invalid env "JUG_MAX_SECONDS").
  { destruct Hm as [-> ->]. by split. }
  assert (Hd : deadline_entry env w1 = deadline_entry env w)
    by (unfold deadline_entry; by rewrite Hc).
  rewrite Hd in Hm.
  destruct (deadline_entry env w) as [entry|e].
  - destruct Hm as [-> Hm].
    pose proof (file_stage_run env w2) as Hf.
    destruct (file_stage env w2) as [r3 w3]. destruct Hf as [-> Hf].
    split; [done|]. rewrite Hf, Hm, Hr. by rewrite <- !app_assoc.
  - destruct Hm as [-> ->]. by split.
Qed.

Lemma watchers_app kind (a b : list (string * Closure)) :
  watchers kind (a ++ b) = watchers kind a ++ watchers kind b.
Proof. apply List.filter_app. Qed.

Lemma watchers_counter_entry kind env w :
  (forall l n, kind (exit_after l n) = false) ->
  watchers kind (counter_entry env w) = [].
Proof.
  intros Hk. unfold counter_entry.
  destruct (env !! "JUG_MAX_TASKS" ≫= int_of_str); [|done].
  cbn. by rewrite Hk.
Qed.

Lemma watchers_file_entry kind env :
  (forall p, kind (check_file p) = false) ->
  watchers kind (file_entry env) = [].
Proof.
  intros Hk. unfold file_entry.
  destruct (env !! "JUG_EXIT_IF_FILE_EXISTS"); [|done].
  cbn. by rewrite Hk.
Qed.

(** What the time stage registers: nothing, or one deadline watcher. *)
Lemma deadline_entry_ok env w entry :
  deadline_entry env w = Ok entry ->
  (truthy (parsed env "JUG_MAX_HOURS") || truthy (parsed env "JUG_MAX_MINUTES")
   || truthy (parsed env "JUG_MAX_SECONDS") = false /\ entry = [])
  \/ (truthy (parsed env "JUG_MAX_HOURS") || truthy (parsed env "JUG_MAX_MINUTES")
      || truthy (parsed env "JUG_MAX_SECONDS") = true
      /\ exists deadline,
           env_deadline env (clock w) = Ok deadline
           /\ entry = [("execute.task-executed1", check_time deadline)]).
Proof.
  unfold deadline_entry.
  destruct (truthy _ || truthy _ || truthy _).
  - destruct (env_deadline env (clock w)) as [d|e]; cbn; [|done].
    intros [= <-]. right. split; [done|]. by exists d.
  - intros [= <-]. by left.
Qed.

Lemma watchers_deadline_entry kind env w entry :
  deadline_entry env w = Ok entry ->
  (forall d, kind (check_time d) = false) ->
  watchers kind entry = [].
Proof.
  intros [[_ ->]|(_ & d & _ & ->)]%deadline_entry_ok Hk; [done|].
  cbn. by rewrite Hk.
Qed.

Lemma watchers_deadline_entry_all env w entry :
  deadline_entry env w = Ok entry -> watchers is_deadline entry = entry.
Proof. by intros [[_ ->]|(_ & d & _ & ->)]%deadline_entry_ok. Qed.

Lemma invalid_numeric_key env key :
  key ∈ numeric_keys -> invalid env key = true ->
  invalid env "JUG_MAX_TASKS" || (invalid env "JUG_MAX_HOURS"
    || invalid env "JUG_MAX_MINUTES" || invalid env "JUG_MAX_SECONDS") = true.
Proof.
  unfold numeric_keys, time_keys. rewrite !elem_of_cons, elem_of_nil.
  intros [->|[->|[->|[->|[]]]]] ->; by rewrite ?orb_true_r.
Qed.

Lemma zero_or_absent_parsed env key :
  invalid env key = false -> zero_or_absent env key = (parsed env key =? 0).
Proof.
  unfold invalid, zero_or_absent, parsed.
  destruct (env !! key) as [s|]; cbn; [|done].
  destruct (int_of_str s) as [[| |]|]; cbn; done.
Qed.

Lemma zero_or_absent_valid env key :
  zero_or_absent env key = true ->
  invalid env key = false /\ parsed env key = 0.
Proof.
  unfold invalid, zero_or_absent, parsed.
  destruct (env !! key) as [s|]; cbn; [|done].
  destruct (int_of_str s) as [[| |]|]; cbn; done.
Qed.

(** The guard of the time stage, in terms of the keys. *)
Lemma time_guard_zero env :
  invalid env "JUG_MAX_HOURS" = false ->
  invalid env "JUG_MAX_MINUTES" = false ->
  invalid env "JUG_MAX_SECONDS" = false ->
  truthy (parsed env "JUG_MAX_HOURS") || truthy (parsed env "JUG_MAX_MINUTES")
  || truthy (parsed env "JUG_MAX_SECONDS")
  = negb (forallb (zero_or_absent env) time_keys).
Proof.
  intros Hh Hm Hs. unfold time_keys, truthy. cbn [forallb].
  rewrite !zero_or_absent_parsed by done.
  by destruct (parsed env "JUG_MAX_HOURS" =? 0),
    (parsed env "JUG_MAX_MINUTES" =? 0),
    (parsed env "JUG_MAX_SECONDS" =? 0).
Qed.

Lemma all_zero_or_absent env :
  forallb (zero_or_absent env) time_keys = true ->
  invalid env "JUG_MAX_HOURS" || invalid env "JUG_MAX_MINUTES"
  || invalid env "JUG_MAX_SECONDS" = false
  /\ forall w, deadline_entry env w = Ok [].
Proof.
  unfold time_keys. cbn [forallb]. rewrite !andb_true_iff.
  intros (Hh%zero_or_absent_valid & Hm%zero_or_absent_valid
          & Hs%zero_or_absent_valid & _).
  destruct Hh as [Hh Hh'], Hm as [Hm Hm'], Hs as [Hs Hs'].
  split; [by rewrite Hh, Hm, Hs|].
  intros w. unfold deadline_entry. by rewrite Hh', Hm', Hs'.
Qed.

(** C5: when some numeric key is set to a string that [int] rejects,
    [exit_env_vars] raises [ValueError].  If the key is [JUG_MAX_TASKS]
    nothing is registered; otherwise the counter watcher, whose key was
    read before, is the only thing that can have been registered: there is
    no deadline watcher and no file-marker watcher.  With
    [JUG_MAX_TASKS] set to ["abc"], which [int] rejects, the world is left
    as it was. *)
Theorem exit_env_vars_invalid_number (w : World) :
  (forall env,
     (exists key, key ∈ numeric_keys /\ invalid env key = true) ->
     let '(r, w') := exit_env_vars (Some env) w in
     r = Raise ValueError
     /\ registry w'
        = registry w
          ++ (if invalid env "JUG_MAX_TASKS" then [] else counter_entry env w)
     /\ watchers is_deadline (installed w w') = []
     /\ watchers is_file_marker (installed w w') = []
     /\ watchers is_predicate (installed w w') = [])
  /\ (int_of_str "abc" = None ->
      exit_env_vars (Some {[ "JUG_MAX_TASKS" := "abc" ]}) w
      = (Raise ValueError, w)).
Proof.
  split.
  - intros env (key & Hkey & Hbad).
    pose proof (invalid_numeric_key env key Hkey Hbad) as Hany.
    pose proof (exit_env_vars_installs env w) as H.
    destruct (exit_env_vars (Some env) w) as [r w'].
    destruct (invalid env "JUG_MAX_TASKS").
    + destruct H as [-> H].
      rewrite (installed_app w w' []) by by rewrite app_nil_r.
      by rewrite app_nil_r.
    + cbn in Hany. rewrite Hany in H. destruct H as [-> H].
      rewrite (installed_app _ _ _ H), !watchers_counter_entry; done.
  - intros Habc. rewrite exit_env_vars_run. unfold tasks_stage.
    rewrite lookup_singleton_eq. by rewrite Habc.
Qed.
(** ** The deadline watcher of the environment *)

(** C6, for every mapping: when every time key is unset or reads as zero,
    no deadline watcher is registered.  And on the mappings on which
    [exit_env_vars] returns: when some time key reads as a number that is
    not zero, exactly one deadline watcher is registered, whose deadline
    is the float that the clock reading plus the three numbers (0 for a
    key that is not set) gives. *)
Theorem exit_env_vars_one_deadline (env : gmap string string) (w : World) :
  (forallb (zero_or_absent env) time_keys = true ->
   watchers is_deadline (installed w (snd (exit_env_vars (Some env) w))) = [])
  /\ (fst (exit_env_vars (Some env) w) = Ok tt -> one_deadline env w).
Proof.
  unfold one_deadline. cbn zeta.
  pose proof (exit_env_vars_installs env w) as H.
  destruct (exit_env_vars (Some env) w) as [r w']. cbn [fst snd].
  assert (Hzero : forallb (zero_or_absent env) time_keys = true ->
                  watchers is_deadline (installed w w') = []).
  { intros Hz. destruct (all_zero_or_absent env Hz) as [Hv Hd].
    rewrite Hv, (Hd w) in H. destruct (invalid env "JUG_MAX_TASKS").
    - destruct H as [_ H].
      by rewrite (installed_app w w' []) by by rewrite app_nil_r.
    - destruct H as [_ H]. rewrite (installed_app _ _ _ H), !watchers_app.
      by rewrite watchers_counter_entry, watchers_file_entry. }
  split; [exact Hzero|]. intros ->.
  destruct (forallb (zero_or_absent env) time_keys) eqn:Ez; [by apply Hzero|].
  destruct (invalid env "JUG_MAX_TASKS"); [by destruct H|].
  destruct (invalid env "JUG_MAX_HOURS" || invalid env "JUG_MAX_MINUTES"
            || invalid env "JUG_MAX_SECONDS") eqn:Ev; [by destruct H|].
  apply orb_false_iff in Ev as [[Hh Hm]%orb_false_iff Hs].
  destruct (deadline_entry env w) as [entry|e] eqn:Ed; [|by destruct H].
  destruct H as [_ H].
  destruct (deadline_entry_ok env w entry Ed) as [[Hg _]|(_ & d & Hd & ->)].
  { rewrite time_guard_zero, Ez in Hg by done. discriminate. }
  exists d. split; [done|].
  rewrite (installed_app _ _ _ H), !watchers_app.
  by rewrite watchers_counter_entry, watchers_file_entry.
Qed.

(** ** Negative durations *)



(** ** Keys that are not set *)

Lemma counter_entry_absent env w :
  env !! "JUG_MAX_TASKS" = None -> counter_entry env w = [].
Proof. intros H. unfold counter_entry. by rewrite H. Qed.

Lemma deadline_entry_absent env w :
  env !! "JUG_MAX_HOURS" = None -> env !! "JUG_MAX_MINUTES" = None ->
  env !! "JUG_MAX_SECONDS" = None -> deadline_entry env w = Ok [].
Proof. intros Hh Hm Hs. unfold deadline_entry, parsed. by rewrite Hh, Hm, Hs. Qed.

Lemma file_entry_absent env :
  env !! "JUG_EXIT_IF_FILE_EXISTS" = None -> file_entry env = [].
Proof. intros H. unfold file_entry. by rewrite H. Qed.

Lemma invalid_time_key env :
  invalid env "JUG_MAX_HOURS" || invalid env "JUG_MAX_MINUTES"
  || invalid env "JUG_MAX_SECONDS" = true ->
  exists key, key ∈ numeric_keys /\ invalid env key = true.
Proof.
  rewrite !orb_true_iff. unfold numeric_keys, time_keys.
  intros [[H|H]|H]; eexists; (split; [|exact H]); set_solver.
Qed.

Lemma truthy_parsed_set env key :
  truthy (parsed env key) = true -> is_Some (env !! key).
Proof.
  unfold parsed. destruct (env !! key) as [s|]; [by eexists|done].
Qed.

(** The call raises [OverflowError] only when some time key is set. *)
Lemma deadline_entry_raise_set env w e :
  deadline_entry env w = Raise e ->
  exists key, key ∈ time_keys /\ is_Some (env !! key).
Proof.
  unfold deadline_entry.
  destruct (truthy (parsed env "JUG_MAX_HOURS")) eqn:Eh.
  { intros _. exists "JUG_MAX_HOURS". split; [unfold time_keys; set_solver|].
    by apply truthy_parsed_set. }
  destruct (truthy (parsed env "JUG_MAX_MINUTES")) eqn:Em.
  { intros _. exists "JUG_MAX_MINUTES". split; [unfold time_keys; set_solver|].
    by apply truthy_parsed_set. }
  destruct (truthy (parsed env "JUG_MAX_SECONDS")) eqn:Es; [|done].
  intros _. exists "JUG_MAX_SECONDS". split; [unfold time_keys; set_solver|].
  by apply truthy_parsed_set.
Qed.

(** C7: with only [JUG_MAX_TASKS] set, to ["5"], which [int] reads as 5,
    [exit_env_vars] returns after registering one callback, a counter
    watcher with threshold 5 and a counter at 0.  For every mapping: what
    is registered comes after what was registered before; a counter
    watcher is registered only if [JUG_MAX_TASKS] is set, a deadline
    watcher only if one of the three time keys is set, a file-marker
    watcher only if [JUG_EXIT_IF_FILE_EXISTS] is set, and a predicate
    watcher never; and the call raises only for a key that is set:
    [ValueError] for a numeric key whose value [int] rejects, or
    [OverflowError] with a time key set. *)
Theorem exit_env_vars_absent_keys (w : World) :
  (int_of_str "5" = Some 5 ->
   exists w',
     exit_env_vars (Some {[ "JUG_MAX_TASKS" := "5" ]}) w = (Ok tt, w')
     /\ registry w'
        = registry w
          ++ [("execute.task-executed1", exit_after (length (lists w)) 5)]
     /\ lists w' = lists w ++ [0])
  /\ forall env,
       let '(r, w') := exit_env_vars (Some env) w in
       registry w' = registry w ++ installed w w'
       /\ (env !! "JUG_MAX_TASKS" = None ->
           watchers is_counter (installed w w') = [])
       /\ (env !! "JUG_MAX_HOURS" = None ->
           env !! "JUG_MAX_MINUTES" = None ->
           env !! "JUG_MAX_SECONDS" = None ->
           watchers is_deadline (installed w w') = [])
       /\ (env !! "JUG_EXIT_IF_FILE_EXISTS" = None ->
           watchers is_file_marker (installed w w') = [])
       /\ watchers is_predicate (installed w w') = []
       /\ (r = Ok tt
           \/ (r = Raise ValueError
               /\ exists key, key ∈ numeric_keys /\ invalid env key = true)
           \/ (r = Raise OverflowError
               /\ exists key, key ∈ time_keys /\ is_Some (env !! key))).
Proof.
  split.
  { intros H5. rewrite exit_env_vars_run.
    unfold tasks_stage, time_stage, file_stage, read.
    rewrite lookup_singleton_eq, H5, !lookup_singleton_ne by done.
    eexists. repeat split; reflexivity. }
  intros env. pose proof (exit_env_vars_installs env w) as H.
  destruct (exit_env_vars (Some env) w) as [r w'].
  destruct (invalid env "JUG_MAX_TASKS") eqn:Et;
    [|destruct (invalid env "JUG_MAX_HOURS" || invalid env "JUG_MAX_MINUTES"
               || invalid env "JUG_MAX_SECONDS") eqn:Em;
      [|destruct (deadline_entry env w) as [entry|e] eqn:Ed]];
    destruct H as [-> H].
  - rewrite (installed_app w w' []) by by rewrite app_nil_r.
    rewrite app_nil_r. repeat (split; [done|]).
    right. left. split; [done|]. exists "JUG_MAX_TASKS". split; [|done].
    unfold numeric_keys. set_solver.
  - rewrite (installed_app _ _ _ H). split; [done|].
    split; [intros Ha; by rewrite counter_entry_absent|].
    rewrite !watchers_counter_entry by done. repeat (split; [done|]).
    right. left. split; [done|]. by apply invalid_time_key.
  - rewrite (installed_app _ _ _ H). split; [done|].
    rewrite !watchers_app.
    split; [|split; [|split; [|split]]].
    + intros Ha. rewrite counter_entry_absent by done.
      by rewrite (watchers_deadline_entry _ env w entry Ed), watchers_file_entry.
    + intros Hh Hm Hs.
      rewrite deadline_entry_absent in Ed by done. injection Ed as <-.
      by rewrite watchers_counter_entry, watchers_file_entry.
    + intros Hf. rewrite file_entry_absent by done.
      by rewrite watchers_counter_entry, (watchers_deadline_entry _ env w entry Ed).
    + by rewrite watchers_counter_entry, (watchers_deadline_entry _ env w entry Ed),
        watchers_file_entry.
    + by left.
  - rewrite (installed_app _ _ _ H). split; [done|].
    split; [intros Ha; by rewrite counter_entry_absent|].
    rewrite !watchers_counter_entry by done. repeat (split; [done|]).
    right. right. split; [done|]. by eapply deadline_entry_raise_set.
Qed.
(** * Further properties *)

(** ** What callbacks leave alone *)

Lemma frame_refl w : frame w w.
Proof. by repeat split. Qed.

Lemma call_frame depth : forall fn args w,
  let w' := snd (call depth fn args w) in
  frame w w' /\ lists w' = lists w /\ calls w `prefix_of` calls w'.
Proof.
  induction depth as [|d IH]; intros fn args w; cbn zeta.
  - cbn. split; [apply frame_refl|]. by split.
  - destruct fn as [u|f]; cbn [call].
    + unfold call_user, mbind, M_bind, modify.
      destruct (fn_call u args); cbn;
        (split; [by repeat split|]; split; [done|]; by apply prefix_app_r).
    + destruct args as [|t [|t' args]];
        try (cbn; split; [apply frame_refl|]; by split).
      unfold mbind, M_bind, load_cell.
      destruct (cells w !! f) as [g|]; [apply IH|].
      cbn. split; [apply frame_refl|]. by split.
Qed.

Lemma call_closure_frame depth c t w :
  let w' := snd (call_closure depth c t w) in
  frame w w'
  /\ length (lists w') = length (lists w)
  /\ (forall l, counter_of c <> Some l -> lists w' !! l = lists w !! l)
  /\ calls w `prefix_of` calls w'.
Proof.
  cbn zeta. destruct c as [fname|f|executed n|deadline].
  - rewrite check_file_run. cbn. split; [apply frame_refl|]. by repeat split.
  - unfold call_closure, mbind, M_bind, load_cell.
    destruct (cells w !! f) as [g|];
      [|cbn; split; [apply frame_refl|]; by repeat split].
    pose proof (call_frame depth g [t] w) as H. cbn zeta in H.
    destruct (call depth g [t] w) as [[b|e] w1]; cbn in H |- *.
    + destruct H as (Hf & Hl & Hc).
      assert (Hw : snd (when b (exit 0) w1) = w1) by (by destruct b).
      rewrite Hw. split; [done|]. rewrite Hl. by repeat split.
    + destruct H as (Hf & Hl & Hc). split; [done|]. rewrite Hl.
      by repeat split.
  - destruct (lists w !! executed) as [x|] eqn:Hx.
    + rewrite (exit_after_run _ _ _ _ _ x) by done. cbn.
      split; [by repeat split|]. split; [apply length_insert|].
      split; [|done]. intros l Hl.
      apply list_lookup_insert_ne. congruence.
    + unfold call_closure, mbind, M_bind, load_item. rewrite Hx. cbn.
      split; [apply frame_refl|]. by repeat split.
  - rewrite check_time_run. cbn. split; [apply frame_refl|]. by repeat split.
Qed.

Lemma run_events_frame depth c evs : forall w,
  let w' := snd (run_events depth c evs w) in
  registry w' = registry w /\ cells w' = cells w
  /\ length (lists w') = length (lists w)
  /\ (forall l, counter_of c <> Some l -> lists w' !! l = lists w !! l)
  /\ calls w `prefix_of` calls w'.
Proof.
  induction evs as [|ev evs IH]; intros w; cbn zeta.
  - cbn. by repeat split.
  - cbn [run_events].
    pose proof (call_closure_frame depth c (ev_task ev) (at_event ev w)) as H.
    cbn zeta in H.
    destruct (call_closure depth c (ev_task ev) (at_event ev w)) as [[[]|e] w1];
      cbn [snd] in H; destruct H as ((Hr & Hc & _) & Hlen & Hl & Hcalls).
    + specialize (IH w1). cbn zeta in IH.
      destruct (run_events depth c evs w1) as [[k r] w2]. cbn [snd] in IH |- *.
      destruct IH as (IHr & IHc & IHlen & IHl & IHcalls).
      split; [by rewrite IHr, Hr|]. split; [by rewrite IHc, Hc|].
      split; [by rewrite IHlen, Hlen|].
      split; [intros l Hne; by rewrite IHl, Hl|].
      by etrans.
    + cbn [snd]. by repeat split.
Qed.

(** X3: a call of the callback of [exit_if_file_exists], of
    [exit_after_n_tasks] or of [exit_after_time], in any world, leaves the
    registry, the cells, the clock, the file system and the process
    environment as they were; it creates and removes no list, and the only
    list it can write to is the counter of the callback itself.  The same
    holds, for the registry, the cells and the lists, over any sequence of
    events.  (The callback of [exit_when_true] calls a function of the
    caller, which can do anything.) *)
Theorem callbacks_touch_only_their_counter (depth : nat) (c : Closure)
    (w : World) :
  is_predicate c = false ->
  (forall t,
     let w' := snd (call_closure depth c t w) in
     frame w w' /\ length (lists w') = length (lists w)
     /\ forall l, counter_of c <> Some l -> lists w' !! l = lists w !! l)
  /\ (forall evs,
        let w' := snd (run_events depth c evs w) in
        registry w' = registry w /\ cells w' = cells w
        /\ length (lists w') = length (lists w)
        /\ forall l, counter_of c <> Some l -> lists w' !! l = lists w !! l).
Proof.
  intros _. split.
  - intros t. destruct (call_closure_frame depth c t w) as (H1 & H2 & H3 & _).
    split; [exact H1|]. split; [exact H2 | exact H3].
  - intros evs.
    destruct (run_events_frame depth c evs w) as (H1 & H2 & H3 & H4 & _).
    split; [exact H1|]. split; [exact H2|]. split; [exact H3 | exact H4].
Qed.

(** ** What factories leave alone *)

Lemma extends_refl w : extends w w.
Proof. by repeat split. Qed.

Lemma extends_trans w1 w2 w3 : extends w1 w2 -> extends w2 w3 -> extends w1 w3.
Proof.
  intros (A1 & A2 & A3 & A4 & A5 & A6 & A7) (B1 & B2 & B3 & B4 & B5 & B6 & B7).
  repeat split; try (by etrans); congruence.
Qed.

Lemma exit_if_file_exists_extends p w :
  extends w (snd (exit_if_file_exists p w)).
Proof. cbn. repeat split; try done. by apply prefix_app_r. Qed.

Lemma exit_when_true_extends u b w : extends w (snd (exit_when_true u b w)).
Proof.
  rewrite exit_when_true_run. cbn.
  repeat split; try done; by apply prefix_app_r.
Qed.

Lemma exit_after_n_tasks_extends n w : extends w (snd (exit_after_n_tasks n w)).
Proof. cbn. repeat split; try done; by apply prefix_app_r. Qed.

Lemma exit_after_time_extends h m s w :
  extends w (snd (exit_after_time h m s w)).
Proof.
  rewrite exit_after_time_run.
  destruct (deadline_value (clock w) h m s); [|apply extends_refl].
  cbn. repeat split; try done. by apply prefix_app_r.
Qed.

Lemma tasks_stage_extends env w : extends w (snd (tasks_stage env w)).
Proof.
  unfold tasks_stage. destruct (env !! "JUG_MAX_TASKS") as [s|];
    [|apply extends_refl].
  destruct (int_of_str s); [apply exit_after_n_tasks_extends|apply extends_refl].
Qed.

Lemma time_stage_extends env w : extends w (snd (time_stage env w)).
Proof.
  unfold time_stage.
  destruct (read env "JUG_MAX_HOURS"); [|apply extends_refl].
  destruct (read env "JUG_MAX_MINUTES"); [|apply extends_refl].
  destruct (read env "JUG_MAX_SECONDS"); [|apply extends_refl].
  destruct (truthy _ || truthy _ || truthy _);
    [apply exit_after_time_extends|apply extends_refl].
Qed.

Lemma file_stage_extends env w : extends w (snd (file_stage env w)).
Proof.
  unfold file_stage. destruct (env !! "JUG_EXIT_IF_FILE_EXISTS");
    [apply exit_if_file_exists_extends|apply extends_refl].
Qed.

Lemma exit_env_vars_extends env w :
  extends w (snd (exit_env_vars (Some env) w)).
Proof.
  rewrite exit_env_vars_run.
  pose proof (tasks_stage_extends env w) as Ht.
  destruct (tasks_stage env w) as [[[]|e] w1]; [|done].
  pose proof (time_stage_extends env w1) as Hm.
  destruct (time_stage env w1) as [[[]|e] w2]; cbn [snd] in *;
    [|by eapply extends_trans].
  eapply extends_trans; [exact Ht|].
  eapply extends_trans; [exact Hm|]. apply file_stage_extends.
Qed.

(** X2: every factory, and [exit_env_vars] on every mapping and without
    one, whether it returns or raises, only adds to the world: what was in
    the registry, in the cells and in the lists stays where it was, with
    the same content, and the clock, the file system, the process
    environment and the record of calls do not change.  So a callback
    registered earlier finds its cell or its counter as it left it. *)
Theorem factories_only_add (w : World) :
  (forall p, extends w (snd (exit_if_file_exists p w)))
  /\ (forall u b, extends w (snd (exit_when_true u b w)))
  /\ (forall n, extends w (snd (exit_after_n_tasks n w)))
  /\ (forall hours minutes seconds,
        extends w (snd (exit_after_time hours minutes seconds w)))
  /\ (forall environ, extends w (snd (exit_env_vars environ w)))
  /\ (forall w' f (v : pyfunc),
        extends w w' -> cells w !! f = Some v -> cells w' !! f = Some v)
  /\ (forall w' l (x : Z),
        extends w w' -> lists w !! l = Some x -> lists w' !! l = Some x).
Proof.
  split; [intros; apply exit_if_file_exists_extends|].
  split; [intros; apply exit_when_true_extends|].
  split; [intros; apply exit_after_n_tasks_extends|].
  split; [intros; apply exit_after_time_extends|].
  split; [|split].
  - intros [env|]; [apply exit_env_vars_extends|].
    rewrite exit_env_vars_default. apply exit_env_vars_extends.
  - intros w' f v (_ & H & _) Hf. by eapply prefix_lookup_Some.
  - intros w' l x (_ & _ & H & _) Hl. by eapply prefix_lookup_Some.
Qed.

(** ** The predicate watcher that is given the task *)

Lemma run_events_exit_when_given depth f u evs : forall w,
  cells w !! f = Some (Given u) ->
  let '(k, r, w1) := run_events (S depth) (exit_when f) evs w in
  calls w1 = calls w ++ map (fun ev => (u, [ev_task ev])) (take k evs)
  /\ (k, r) = match first_event (stops u) evs with
              | Some i =>
                  (S i, match evs !! i with
                        | Some ev => outcome_of u (ev_task ev)
                        | None => Ok tt
                        end)
              | None => (length evs, Ok tt)
              end.
Proof.
  induction evs as [|ev evs IH]; intros w Hf.
  - cbn. by rewrite app_nil_r.
  - cbn [run_events first_event].
    rewrite (exit_when_given_run _ _ u) by done.
    unfold stops, outcome_of at 1.
    destruct (fn_call u [ev_task ev]) as [[|]|e] eqn:E.
    + cbn. unfold outcome_of. by rewrite E.
    + specialize (IH (set_calls (calls (at_event ev w) ++ [(u, [ev_task ev])])
                        (at_event ev w)) Hf).
      destruct (run_events (S depth) (exit_when f) evs _) as [[k r] w1].
      destruct IH as [IH1 IH2]. split.
      * rewrite IH1. cbn. by rewrite <- app_assoc.
      * fold (stops u). destruct (first_event (stops u) evs) as [i|]; cbn;
          injection IH2 as -> ->; done.
    + cbn. unfold outcome_of. by rewrite E.
Qed.

(** X1: with [function_takes_Task] true, over any sequence of events the
    callback calls the caller's function once at each event, with the task
    of that event as its only argument and in the order of the events,
    until a call returns a true value or raises.  If that happens at some
    event, the run ends there, with status 0 or with the exception of the
    function, and the function is not called again; otherwise every call
    of the callback returns. *)
Theorem exit_when_true_with_task_runs (u : UserFn) (depth : nat) (w : World)
    (evs : list Event) :
  let w' := snd (exit_when_true u true w) in
  let '(k, r, w1) :=
    run_events (S depth) (exit_when (length (cells w))) evs w' in
  calls w1 = calls w ++ map (fun ev => (u, [ev_task ev])) (take k evs)
  /\ (k, r) = match first_event (stops u) evs with
              | Some i =>
                  (S i, match evs !! i with
                        | Some ev => outcome_of u (ev_task ev)
                        | None => Ok tt
                        end)
              | None => (length evs, Ok tt)
              end.
Proof.
  cbn zeta.
  pose proof (run_events_exit_when_given depth (length (cells w)) u evs
                (snd (exit_when_true u true w))
                (exit_when_true_cell u true w)) as H.
  destruct (run_events (S depth) _ evs _) as [[k r] w1].
  destruct H as [H1 H2]. split; [|done].
  rewrite H1. by rewrite exit_when_true_run.
Qed.

(** ** Two counters *)

(** X4: two calls of [exit_after_n_tasks] give two callbacks with two
    counters.  Over any sequence of events, running one of the callbacks
    leaves the counter of the other at 0, and its own counter equals the
    number of calls made. *)
Theorem counters_are_independent (n1 n2 : Z) (depth : nat) (w : World)
    (evs : list Event) :
  let w1 := snd (exit_after_n_tasks n1 w) in
  let w2 := snd (exit_after_n_tasks n2 w1) in
  let l1 := length (lists w) in
  let l2 := S (length (lists w)) in
  installed w w2
  = [("execute.task-executed1", exit_after l1 n1);
     ("execute.task-executed1", exit_after l2 n2)]
  /\ (let '(k, _, w3) := run_events depth (exit_after l1 n1) evs w2 in
      lists w3 !! l1 = Some (Z.of_nat k) /\ lists w3 !! l2 = Some 0)
  /\ (let '(k, _, w3) := run_events depth (exit_after l2 n2) evs w2 in
      lists w3 !! l2 = Some (Z.of_nat k) /\ lists w3 !! l1 = Some 0).
Proof.
  cbn zeta.
  set (w2 := snd (exit_after_n_tasks n2 (snd (exit_after_n_tasks n1 w)))).
  assert (Hl : lists w2 = lists w ++ [0; 0]).
  { change (lists w2) with ((lists w ++ [0]) ++ [0]).
    by rewrite <- app_assoc. }
  assert (H1 : lists w2 !! length (lists w) = Some 0).
  { rewrite Hl, lookup_app_r by done. by rewrite Nat.sub_diag. }
  assert (H2 : lists w2 !! S (length (lists w)) = Some 0).
  { rewrite Hl, lookup_app_r by lia.
    by replace (S (length (lists w)) - length (lists w))%nat with 1%nat by lia. }
  split.
  { apply installed_app.
    change (registry w2)
      with ((registry w
             ++ [("execute.task-executed1", exit_after (length (lists w)) n1)])
            ++ [("execute.task-executed1",
                 exit_after (length (lists w ++ [0])) n2)]).
    rewrite length_app, <- app_assoc. cbn [length]. by rewrite Nat.add_1_r. }
  split.
  - pose proof (run_events_exit_after depth (length (lists w)) n1 evs w2 0 H1)
      as Hrun.
    pose proof (run_events_frame depth (exit_after (length (lists w)) n1) evs w2)
      as Hfr.
    destruct (run_events depth _ evs w2) as [[k r] w3].
    destruct Hrun as (Hk & _). destruct Hfr as (_ & _ & _ & Hother & _).
    rewrite Z.add_0_l in Hk. split; [exact Hk|].
    cbn [snd] in Hother. rewrite Hother; [done|]. cbn. intros [=]. lia.
  - pose proof (run_events_exit_after depth (S (length (lists w))) n2 evs w2 0
                  H2) as Hrun.
    pose proof (run_events_frame depth (exit_after (S (length (lists w))) n2)
                  evs w2) as Hfr.
    destruct (run_events depth _ evs w2) as [[k r] w3].
    destruct Hrun as (Hk & _). destruct Hfr as (_ & _ & _ & Hother & _).
    rewrite Z.add_0_l in Hk. split; [exact Hk|].
    cbn [snd] in Hother. rewrite Hother; [done|]. cbn. intros [=]. lia.
Qed.

(** ** The keys that are read *)

(** X5: [exit_env_vars] looks at five keys and at nothing else in the
    mapping: two mappings that agree on those keys give the same result
    and the same world. *)
Theorem exit_env_vars_reads_five_keys (env1 env2 : gmap string string)
    (w : World) :
  (forall key, key ∈ recognized -> env1 !! key = env2 !! key) ->
  exit_env_vars (Some env1) w = exit_env_vars (Some env2) w.
Proof.
  intros H. rewrite !exit_env_vars_run.
  assert (Ht : env1 !! "JUG_MAX_TASKS" = env2 !! "JUG_MAX_TASKS")
    by (apply H; unfold recognized, numeric_keys, time_keys; set_solver).
  assert (Hh : env1 !! "JUG_MAX_HOURS" = env2 !! "JUG_MAX_HOURS")
    by (apply H; unfold recognized, numeric_keys, time_keys; set_solver).
  assert (Hm : env1 !! "JUG_MAX_MINUTES" = env2 !! "JUG_MAX_MINUTES")
    by (apply H; unfold recognized, numeric_keys, time_keys; set_solver).
  assert (Hs : env1 !! "JUG_MAX_SECONDS" = env2 !! "JUG_MAX_SECONDS")
    by (apply H; unfold recognized, numeric_keys, time_keys; set_solver).
  assert (Hf : env1 !! "JUG_EXIT_IF_FILE_EXISTS"
               = env2 !! "JUG_EXIT_IF_FILE_EXISTS")
    by (apply H; unfold recognized, numeric_keys, time_keys; set_solver).
  unfold tasks_stage, time_stage, file_stage, read.
  by rewrite Ht, Hh, Hm, Hs, Hf.
Qed.

(** ** The world after [exit_env_vars] *)

Lemma tasks_stage_store env w :
  lists (snd (tasks_stage env w)) = lists w ++ counter_cell env
  /\ cells (snd (tasks_stage env w)) = cells w.
Proof.
  unfold tasks_stage, counter_cell.
  destruct (env !! "JUG_MAX_TASKS") as [s|]; cbn; [|by rewrite app_nil_r].
  destruct (int_of_str s); cbn; [done|]. by rewrite app_nil_r.
Qed.

Lemma time_stage_store env w :
  lists (snd (time_stage env w)) = lists w
  /\ cells (snd (time_stage env w)) = cells w.
Proof.
  unfold time_stage.
  destruct (read env "JUG_MAX_HOURS"); [|done].
  destruct (read env "JUG_MAX_MINUTES"); [|done].
  destruct (read env "JUG_MAX_SECONDS"); [|done].
  destruct (truthy _ || truthy _ || truthy _); [|done].
  rewrite exit_after_time_run. by destruct (deadline_value _ _ _ _).
Qed.

Lemma file_stage_store env w :
  lists (snd (file_stage env w)) = lists w
  /\ cells (snd (file_stage env w)) = cells w.
Proof.
  unfold file_stage. by destruct (env !! "JUG_EXIT_IF_FILE_EXISTS").
Qed.

Lemma exit_env_vars_store env w :
  lists (snd (exit_env_vars (Some env) w)) = lists w ++ counter_cell env
  /\ cells (snd (exit_env_vars (Some env) w)) = cells w.
Proof.
  rewrite exit_env_vars_run.
  destruct (tasks_stage_store env w) as [Hl Hc].
  destruct (tasks_stage env w) as [[[]|e] w1]; [|done]. cbn [snd] in Hl, Hc.
  destruct (time_stage_store env w1) as [Hl' Hc'].
  destruct (time_stage env w1) as [[[]|e] w2]; cbn [snd] in Hl', Hc' |- *;
    [|by rewrite Hl', Hc'].
  destruct (file_stage_store env w2) as [-> ->]. by rewrite Hl', Hc'.
Qed.

(** What a call that returns has registered. *)
Lemma exit_env_vars_ok env w :
  fst (exit_env_vars (Some env) w) = Ok tt ->
  invalid env "JUG_MAX_TASKS" = false
  /\ exists entry,
       deadline_entry env w = Ok entry
       /\ entry = (if forallb (zero_or_absent env) time_keys then []
                   else match env_deadline env (clock w) with
                        | Ok deadline =>
                            [("execute.task-executed1", check_time deadline)]
                        | Raise _ => []
                        end)
       /\ registry (snd (exit_env_vars (Some env) w))
          = registry w ++ counter_entry env w ++ entry ++ file_entry env.
Proof.
  pose proof (exit_env_vars_installs env w) as H.
  destruct (exit_env_vars (Some env) w) as [r w']. cbn [fst snd]. intros ->.
  destruct (invalid env "JUG_MAX_TASKS"); [by destruct H|].
  destruct (invalid env "JUG_MAX_HOURS" || invalid env "JUG_MAX_MINUTES"
            || invalid env "JUG_MAX_SECONDS") eqn:Ev; [by destruct H|].
  apply orb_false_iff in Ev as [[Hh Hm]%orb_false_iff Hs].
  destruct (deadline_entry env w) as [entry|e] eqn:Ed; [|by destruct H].
  destruct H as [_ H]. split; [done|]. exists entry.
  split; [done|]. split; [|done].
  destruct (deadline_entry_ok env w entry Ed) as [[Hg ->]|(Hg & d & Hd & ->)];
    rewrite time_guard_zero in Hg by done;
    destruct (forallb (zero_or_absent env) time_keys); try done.
  by rewrite Hd.
Qed.

(** X6: when [exit_env_vars] returns, what it has registered is, in this
    order: a counter watcher if [JUG_MAX_TASKS] is set, with the number it
    holds as threshold (zero and negative numbers too) and a new counter
    at 0; a deadline watcher if a time key holds a number that is not
    zero; a file-marker watcher if [JUG_EXIT_IF_FILE_EXISTS] is set, for
    the string it holds, whatever it is.  No cell is made. *)
Theorem exit_env_vars_registers_in_order (env : gmap string string)
    (w : World) :
  fst (exit_env_vars (Some env) w) = Ok tt ->
  let w' := snd (exit_env_vars (Some env) w) in
  registry w'
  = registry w
    ++ match env !! "JUG_MAX_TASKS" ≫= int_of_str with
       | Some n =>
           [("execute.task-executed1", exit_after (length (lists w)) n)]
       | None => []
       end
    ++ (if forallb (zero_or_absent env) time_keys then []
        else match env_deadline env (clock w) with
             | Ok deadline =>
                 [("execute.task-executed1", check_time deadline)]
             | Raise _ => []
             end)
    ++ match env !! "JUG_EXIT_IF_FILE_EXISTS" with
       | Some p => [("execute.task-pre-execute", check_file p)]
       | None => []
       end
  /\ (forallb (zero_or_absent env) time_keys = false ->
      exists deadline, env_deadline env (clock w) = Ok deadline)
  /\ lists w'
     = lists w ++ match env !! "JUG_MAX_TASKS" with
                  | Some _ => [0]
                  | None => []
                  end
  /\ cells w' = cells w.
Proof.
  intros Hr. cbn zeta.
  destruct (exit_env_vars_ok env w Hr) as (Ht & entry & Hd & He & Hreg).
  destruct (exit_env_vars_store env w) as [Hl Hc].
  split; [|split; [|split; [|done]]].
  - rewrite Hreg, He. reflexivity.
  - intros Hz.
    destruct (deadline_entry_ok env w entry Hd) as [[_ ->]|(_ & d & Hv & _)];
      [|by exists d].
    rewrite Hz in He.
    destruct (env_deadline env (clock w)) as [d|e]; [by exists d|].
    unfold deadline_entry in Hd.
    destruct (truthy _ || truthy _ || truthy _) eqn:Hg.
    + by destruct (env_deadline env (clock w)).
    + pose proof (exit_env_vars_installs env w) as H.
      destruct (exit_env_vars (Some env) w) as [r w']. cbn [fst] in Hr. subst r.
      rewrite Ht in H.
      destruct (invalid env "JUG_MAX_HOURS" || invalid env "JUG_MAX_MINUTES"
                || invalid env "JUG_MAX_SECONDS") eqn:Ev; [by destruct H|].
      apply orb_false_iff in Ev as [[Hh Hm]%orb_false_iff Hs].
      rewrite time_guard_zero, Hz in Hg by done. discriminate.
  - rewrite Hl. unfold counter_cell, invalid in *.
    destruct (env !! "JUG_MAX_TASKS") as [s|]; [|done]. cbn.
    by destruct (int_of_str s).
Qed.

(** X10: when [JUG_MAX_TASKS] holds a string that [int] reads as [n],
    [exit_env_vars] registers a counter watcher, also when it raises
    later.  Its callback is called at every event until event number
    [max 1 n], at which it terminates the process with status 0: the count
    starts when the environment is read. *)
Theorem exit_env_vars_counter_runs (env : gmap string string) (w : World)
    (s : string) (n : Z) (depth : nat) (evs : list Event) :
  env !! "JUG_MAX_TASKS" = Some s -> int_of_str s = Some n ->
  let w' := snd (exit_env_vars (Some env) w) in
  let c := exit_after (length (lists w)) n in
  ("execute.task-executed1", c) ∈ installed w w'
  /\ let '(k, r, _) := run_events depth c evs w' in
     if Z.of_nat (length evs) <? Z.max 1 n
     then k = length evs /\ r = Ok tt
     else Z.of_nat k = Z.max 1 n /\ r = Raise (SystemExit 0).
Proof.
  intros Hs Hn. cbn zeta.
  pose proof (exit_env_vars_installs env w) as H.
  destruct (exit_env_vars_store env w) as [Hl _].
  destruct (exit_env_vars (Some env) w) as [r w']. cbn [snd] in *.
  assert (Hce : counter_entry env w
                = [("execute.task-executed1", exit_after (length (lists w)) n)]).
  { unfold counter_entry. rewrite Hs. cbn. by rewrite Hn. }
  assert (Hv : invalid env "JUG_MAX_TASKS" = false).
  { unfold invalid. by rewrite Hs, Hn. }
  rewrite Hv, Hce in H.
  split.
  - destruct (invalid env "JUG_MAX_HOURS" || invalid env "JUG_MAX_MINUTES"
              || invalid env "JUG_MAX_SECONDS");
      [|destruct (deadline_entry env w)];
      destruct H as [_ H]; rewrite (installed_app _ _ _ H); set_solver.
  - assert (H0 : lists w' !! length (lists w) = Some 0).
    { rewrite Hl. unfold counter_cell. rewrite Hs. cbn. rewrite Hn.
      rewrite lookup_app_r by done. by rewrite Nat.sub_diag. }
    pose proof (run_events_exit_after depth (length (lists w)) n evs w' 0 H0)
      as Hrun.
    destruct (run_events depth _ evs w') as [[k r'] w1].
    destruct Hrun as (_ & _ & Hrun). by rewrite !Z.add_0_l in Hrun.
Qed.

(** ** Numbers that are blank *)

(** A numeric key that [int] rejects: the call raises before the time
    stage and the file stage register anything. *)
Lemma invalid_number_raises env w key :
  key ∈ numeric_keys -> invalid env key = true ->
  let '(r, w') := exit_env_vars (Some env) w in
  r = Raise ValueError
  /\ watchers is_deadline (installed w w') = []
  /\ watchers is_file_marker (installed w w') = [].
Proof.
  intros Hkey Hbad.
  pose proof (invalid_numeric_key env key Hkey Hbad) as Hany.
  pose proof (exit_env_vars_installs env w) as H.
  destruct (exit_env_vars (Some env) w) as [r w'].
  destruct (invalid env "JUG_MAX_TASKS").
  - destruct H as [-> H].
    by rewrite (installed_app w w' []) by by rewrite app_nil_r.
  - cbn in Hany. rewrite Hany in H. destruct H as [-> H].
    rewrite (installed_app _ _ _ H), !watchers_counter_entry; done.
Qed.

(** X9: with an [int] that rejects the strings of white space, the empty
    one included, as Python's does, a numeric key that is set to such a
    string is not taken as unset: [exit_env_vars] raises [ValueError], and
    registers neither a deadline watcher nor a file-marker watcher. *)
Theorem exit_env_vars_blank_number (env : gmap string string) (w : World)
    (key s : string) :
  (forall s', all_blank s' = true -> int_of_str s' = None) ->
  key ∈ numeric_keys -> env !! key = Some s -> all_blank s = true ->
  let '(r, w') := exit_env_vars (Some env) w in
  r = Raise ValueError
  /\ watchers is_deadline (installed w w') = []
  /\ watchers is_file_marker (installed w w') = [].
Proof.
  intros Hint Hkey Hs Hblank. apply (invalid_number_raises env w key Hkey).
  unfold invalid. rewrite Hs. by rewrite Hint.
Qed.

(** ** The two events after [exit_env_vars] *)

Lemma hooks_for_app name a b :
  hooks_for name (a ++ b) = hooks_for name a ++ hooks_for name b.
Proof. unfold hooks_for. by rewrite List.filter_app, map_app. Qed.

Lemma jug_hook_run depth name t w :
  jug_hook depth name t w = call_each depth (hooks_for name (registry w)) t w.
Proof. reflexivity. Qed.

(** X7: after a call of [exit_env_vars] that returns, on a registry that
    was empty, the event fired before a task reaches the file-marker
    watcher only: the dispatch terminates the process with status 0 when
    [JUG_EXIT_IF_FILE_EXISTS] is set and the file exists, and otherwise
    returns.  Either way the world is as it was: the event does not count
    as a task and the clock is not read. *)
Theorem pre_execute_after_exit_env_vars (env : gmap string string) (w : World)
    (depth : nat) (ev : Event) :
  fst (exit_env_vars (Some env) w) = Ok tt ->
  registry w = [] ->
  let w' := at_event ev (snd (exit_env_vars (Some env) w)) in
  jug_hook depth "execute.task-pre-execute" (ev_task ev) w'
  = (match env !! "JUG_EXIT_IF_FILE_EXISTS" with
     | Some p => if ev_files ev p then Raise (SystemExit 0) else Ok tt
     | None => Ok tt
     end, w').
Proof.
  intros Hr Hw. cbn zeta.
  destruct (exit_env_vars_ok env w Hr) as (_ & entry & Hd & _ & Hreg).
  rewrite jug_hook_run. cbn [registry at_event].
  rewrite Hreg, Hw, app_nil_l, !hooks_for_app.
  assert (Hc : hooks_for "execute.task-pre-execute" (counter_entry env w) = []).
  { unfold counter_entry.
    by destruct (env !! "JUG_MAX_TASKS" ≫= int_of_str). }
  assert (He : hooks_for "execute.task-pre-execute" entry = []).
  { by destruct (deadline_entry_ok env w entry Hd)
      as [[_ ->]|(_ & d & _ & ->)]. }
  rewrite Hc, He. unfold file_entry. cbn [app].
  destruct (env !! "JUG_EXIT_IF_FILE_EXISTS") as [p|]; [|done].
  change (hooks_for "execute.task-pre-execute"
            [("execute.task-pre-execute", check_file p)])
    with [check_file p].
  rewrite call_each_cons, check_file_run. cbn [path_exists at_event].
  by destruct (ev_files ev p).
Qed.

(** X8: after a call of [exit_env_vars] that returns, on a registry that
    was empty, the first event fired after a task terminates the process
    with status 0 when [JUG_MAX_TASKS] holds a number that is at most 1,
    or when a deadline watcher was registered and the clock has reached
    its deadline; otherwise the dispatch returns.  It raises nothing else,
    and the file system is not consulted. *)
Theorem post_execute_after_exit_env_vars (env : gmap string string)
    (w : World) (depth : nat) (ev : Event) :
  fst (exit_env_vars (Some env) w) = Ok tt ->
  registry w = [] ->
  let w' := at_event ev (snd (exit_env_vars (Some env) w)) in
  fst (jug_hook depth "execute.task-executed1" (ev_task ev) w')
  = if tasks_hit env || time_hit env (clock w) (ev_time ev)
    then Raise (SystemExit 0) else Ok tt.
Proof.
  intros Hr Hw. cbn zeta.
  destruct (exit_env_vars_ok env w Hr) as (_ & entry & Hd & He & Hreg).
  destruct (exit_env_vars_store env w) as [Hl _].
  rewrite jug_hook_run. cbn [registry at_event].
  rewrite Hreg, Hw, app_nil_l, !hooks_for_app.
  assert (Hf : hooks_for "execute.task-executed1" (file_entry env) = []).
  { unfold file_entry. by destruct (env !! "JUG_EXIT_IF_FILE_EXISTS"). }
  rewrite Hf, app_nil_r.
  set (w1 := at_event ev (snd (exit_env_vars (Some env) w))).
  assert (Hdl : forall w2,
    clock w2 = ev_time ev ->
    fst (call_each depth (hooks_for "execute.task-executed1" entry)
           (ev_task ev) w2)
    = if time_hit env (clock w) (ev_time ev)
      then Raise (SystemExit 0) else Ok tt).
  { intros w2 Hclock. unfold time_hit. rewrite He.
    destruct (forallb (zero_or_absent env) time_keys); [done|].
    destruct (env_deadline env (clock w)) as [d|e]; [|done].
    change (hooks_for "execute.task-executed1"
              [("execute.task-executed1", check_time d)])
      with [check_time d].
    rewrite call_each_cons, check_time_run, Hclock. cbn [negb andb].
    by destruct (fge (ev_time ev) d). }
  unfold tasks_hit, counter_entry.
  assert (Hl1 : lists w1 = lists w ++ counter_cell env) by exact Hl.
  unfold counter_cell in Hl1.
  destruct (env !! "JUG_MAX_TASKS" ≫= int_of_str) as [n|].
  - change (hooks_for "execute.task-executed1"
              [("execute.task-executed1", exit_after (length (lists w)) n)])
      with [exit_after (length (lists w)) n].
    cbn [app]. rewrite call_each_cons.
    rewrite (exit_after_run _ _ _ _ _ 0)
      by (rewrite Hl1, lookup_app_r by done; by rewrite Nat.sub_diag).
    change (0 + 1) with 1. destruct (n <=? 1); [done|].
    cbn [orb]. by apply Hdl.
  - cbn [app orb]. by apply Hdl.
Qed.

End Interpreter.

(** * The properties at sample values *)

(** Below, [int] is the reader of decimal literals [parse_int], and the
    clock readings are floats of small integers. *)

(** ** The reader of decimal literals *)

Lemma parse_int_blank s : all_blank s = true -> parse_int s = None.
Proof.
  intros H. unfold parse_int. destruct (4300 <? digit_count s)%nat; [done|].
  induction s as [|a s IH]; [done|].
  destruct a as [[|] [|] [|] [|] [|] [|] [|] [|]]; try discriminate H;
    cbn in H |- *; first [apply IH; exact H | reflexivity].
Qed.

Example parse_int_samples :
  parse_int "5" = Some 5 /\ parse_int "abc" = None
  /\ parse_int " -1_000 " = Some (-1000) /\ parse_int "" = None
  /\ parse_int "1__0" = None /\ parse_int "+" = None.
Proof. repeat split; reflexivity. Qed.

(** ** The claims *)

Lemma exit_when_true_without_task_witness :
  let w' := snd (exit_when_true always_true false (world0 (flt 0))) in
  call_closure 2 (exit_when O) 7%nat w' = (Raise TypeError, w').
Proof.
  apply (exit_when_true_without_task always_true O (world0 (flt 0))).
  reflexivity.
Defined.

Lemma exit_when_propagates_witness :
  let w' := snd (exit_when_true always_raises true (world0 (flt 0))) in
  fst (call_closure 3 (exit_when O) 7%nat w') = Raise (UserError 1).
Proof.
  intros w'.
  pose proof (exit_when_propagates always_raises true 3 (world0 (flt 0)) w'
                7%nat eq_refl) as H.
  vm_compute in H.
  destruct (H always_raises [7%nat] (UserError 1)) as [Hr _];
    [constructor | reflexivity | exact Hr].
Defined.

Lemma exit_after_n_tasks_counts_witness :
  let w' := snd (exit_after_n_tasks 3 (world0 (flt 0))) in
  lists w' !! O = Some 0
  /\ fst (call_closure 8 (exit_after O 3) 7%nat w') = Ok tt.
Proof.
  destruct (exit_after_n_tasks_counts 3 8 (world0 (flt 0)))
    as (_ & _ & H0 & Hstep & _).
  split; [exact H0|].
  specialize (Hstep 7%nat _ 0 H0). vm_compute in Hstep.
  exact (proj2 Hstep).
Defined.

Lemma exit_after_time_deadline_witness :
  let w' := snd (exit_after_time (PyInt 0) (PyInt 0) (PyInt 0)
                   (world0 (flt 5))) in
  fge (flt 5) (flt 5) = true
  /\ exists deadline,
       installed (world0 (flt 5)) w'
       = [("execute.task-executed1", check_time deadline)]
       /\ fst (run_events 8 (check_time deadline) [event_at (flt 5)] w')
          = (1%nat, Raise (SystemExit 0)).
Proof.
  intros w'. split; [reflexivity|].
  destruct (exit_after_time_deadline (PyInt 0) (PyInt 0) (PyInt 0) 8
              (world0 (flt 5))) as [_ (d & _ & Hi & Hrun)].
  exists d. split; [exact Hi|]. apply Hrun. reflexivity.
Defined.

(** C3 as it was stated fails: when the clock is set back between the
    call of [exit_after_time], with all three parameters 0, and the next
    event, the callback returns at that event. *)
Lemma exits_at_next_event_fails :
  ~ exits_at_next_event (PyInt 0) (PyInt 0) (PyInt 0) (world0 (flt 100))
      (event_at (flt 50)).
Proof.
  intros (d & Hi & Hrun). vm_compute in Hi. injection Hi as <-.
  vm_compute in Hrun. discriminate.
Qed.

(** C9 as it was stated fails: with 10 to the power 309 as [seconds],
    [exit_after_time] raises [OverflowError] and registers nothing. *)
Lemma registers_once_fails :
  ~ registers_once (exit_after_time (PyInt 0) (PyInt 0) (PyInt (10 ^ 309)))
      "execute.task-executed1" (world0 (flt 0)).
Proof. intros (c & w' & H & _). vm_compute in H. discriminate. Qed.

Lemma exit_env_vars_invalid_number_witness :
  let env : gmap string string :=
    {[ "JUG_MAX_TASKS" := "3"; "JUG_MAX_MINUTES" := "soon" ]} in
  (let '(r, w') := exit_env_vars parse_int (Some env) (world0 (flt 0)) in
   r = Raise ValueError
   /\ registry w' = [("execute.task-executed1", exit_after O 3)])
  /\ exit_env_vars parse_int (Some {[ "JUG_MAX_TASKS" := "abc" ]})
       (world0 (flt 0))
     = (Raise ValueError, world0 (flt 0)).
Proof.
  intros env.
  destruct (exit_env_vars_invalid_number parse_int (world0 (flt 0)))
    as [H Habc].
  split; [|apply Habc; reflexivity].
  specialize (H env).
  destruct (exit_env_vars parse_int (Some env) (world0 (flt 0))) as [r w'].
  destruct H as (Hr & Hreg & _).
  - exists "JUG_MAX_MINUTES". split; [|reflexivity].
    unfold numeric_keys, time_keys. repeat constructor.
  - split; [exact Hr | exact Hreg].
Defined.

Lemma exit_env_vars_one_deadline_witness :
  let env : gmap string string :=
    {[ "JUG_MAX_HOURS" := "1"; "JUG_MAX_SECONDS" := "30" ]} in
  let zeros : gmap string string :=
    {[ "JUG_MAX_HOURS" := "0"; "JUG_MAX_MINUTES" := "0" ]} in
  fst (exit_env_vars parse_int (Some env) (world0 (flt 100))) = Ok tt
  /\ one_deadline parse_int env (world0 (flt 100))
  /\ forallb (zero_or_absent parse_int zeros) time_keys = true
  /\ watchers is_deadline
       (installed (world0 (flt 100))
          (snd (exit_env_vars parse_int (Some zeros) (world0 (flt 100)))))
     = [].
Proof.
  intros env zeros. split; [reflexivity|]. split.
  - apply exit_env_vars_one_deadline. reflexivity.
  - split; [reflexivity|].
    apply (proj1 (exit_env_vars_one_deadline parse_int zeros
                    (world0 (flt 100)))).
    reflexivity.
Defined.

(** C6 as it was stated fails: with [JUG_MAX_TASKS] set to ["abc"] and
    [JUG_MAX_SECONDS] set to ["5"], a time key is set to a number that is
    not zero, and no deadline watcher is registered, since the call raises
    at [JUG_MAX_TASKS]. *)
Lemma one_deadline_fails :
  ~ one_deadline parse_int
      {[ "JUG_MAX_TASKS" := "abc"; "JUG_MAX_SECONDS" := "5" ]}
      (world0 (flt 0)).
Proof.
  unfold one_deadline. vm_compute. intros (d & _ & H). discriminate.
Qed.

Lemma exit_env_vars_absent_keys_witness :
  let env : gmap string string := {[ "JUG_EXIT_IF_FILE_EXISTS" := "stop" ]} in
  let w' := snd (exit_env_vars parse_int (Some env) (world0 (flt 0))) in
  watchers is_counter (installed (world0 (flt 0)) w') = []
  /\ watchers is_deadline (installed (world0 (flt 0)) w') = []
  /\ exists w5,
       exit_env_vars parse_int (Some {[ "JUG_MAX_TASKS" := "5" ]})
         (world0 (flt 0)) = (Ok tt, w5)
       /\ registry w5 = [("execute.task-executed1", exit_after O 5)].
Proof.
  intros env w'.
  destruct (exit_env_vars_absent_keys parse_int (world0 (flt 0))) as [H5 H].
  cut (watchers is_counter (installed (world0 (flt 0)) w') = []
       /\ watchers is_deadline (installed (world0 (flt 0)) w') = []).
  { intros [Hc Hd]. split; [exact Hc|]. split; [exact Hd|].
    destruct (H5 eq_refl) as (w5 & Hrun & Hreg & _).
    exists w5. split; [exact Hrun | exact Hreg]. }
  specialize (H env). fold w' in H.
  change (exit_env_vars parse_int (Some env) (world0 (flt 0)))
    with (fst (exit_env_vars parse_int (Some env) (world0 (flt 0))), w') in H.
  destruct H as (_ & Hc & Hd & _).
  split; [apply Hc; reflexivity | apply Hd; reflexivity].
Defined.



(** Two time keys set to zero: nothing is registered. *)
Example exit_env_vars_all_zero :
  exit_env_vars parse_int
    (Some {[ "JUG_MAX_HOURS" := "0"; "JUG_MAX_MINUTES" := "0" ]})
    (world0 (flt 0))
  = (Ok tt, world0 (flt 0)).
Proof. reflexivity. Qed.

(** ** The further properties *)

Lemma factories_only_add_witness :
  let w := snd (exit_when_true always_raises true (world0 (flt 0))) in
  let w' := snd (exit_env_vars parse_int
                   (Some {[ "JUG_MAX_TASKS" := "5" ]}) w) in
  cells w !! O = Some (Given always_raises)
  /\ cells w' !! O = Some (Given always_raises).
Proof.
  intros w w'.
  destruct (factories_only_add parse_int w) as (_ & _ & _ & _ & He & Hc & _).
  split; [reflexivity|].
  apply (Hc w' O _ (He (Some {[ "JUG_MAX_TASKS" := "5" ]}))). reflexivity.
Defined.

Lemma callbacks_touch_only_their_counter_witness :
  let w := snd (exit_after_n_tasks 9
                  (snd (exit_after_n_tasks 3 (world0 (flt 0))))) in
  let w' := snd (call_closure 8 (exit_after O 3) 7%nat w) in
  is_predicate (exit_after O 3) = false
  /\ counter_of (exit_after O 3) <> Some 1%nat
  /\ lists w' !! 1%nat = lists w !! 1%nat.
Proof.
  intros w w'.
  destruct (callbacks_touch_only_their_counter 8 (exit_after O 3) w eq_refl)
    as [H _].
  destruct (H 7%nat) as (_ & _ & Hl).
  split; [reflexivity|]. split; [discriminate|]. apply Hl. discriminate.
Defined.

Lemma exit_env_vars_reads_five_keys_witness :
  let env1 : gmap string string :=
    {[ "JUG_MAX_TASKS" := "5"; "PATH" := "/usr/bin" ]} in
  let env2 : gmap string string := {[ "JUG_MAX_TASKS" := "5" ]} in
  exit_env_vars parse_int (Some env1) (world0 (flt 0))
  = exit_env_vars parse_int (Some env2) (world0 (flt 0)).
Proof.
  intros env1 env2. apply exit_env_vars_reads_five_keys.
  intros key Hin. apply list_elem_of_In in Hin.
  unfold recognized, numeric_keys, time_keys in Hin. cbn [app In] in Hin.
  destruct Hin as [<-|[<-|[<-|[<-|[<-|[]]]]]]; reflexivity.
Defined.

Lemma exit_env_vars_registers_in_order_witness :
  let env : gmap string string :=
    {[ "JUG_MAX_TASKS" := "0"; "JUG_EXIT_IF_FILE_EXISTS" := "" ]} in
  let timed : gmap string string := {[ "JUG_MAX_SECONDS" := "30" ]} in
  fst (exit_env_vars parse_int (Some env) (world0 (flt 0))) = Ok tt
  /\ registry (snd (exit_env_vars parse_int (Some env) (world0 (flt 0))))
     = [("execute.task-executed1", exit_after O 0);
        ("execute.task-pre-execute", check_file "")]
  /\ forallb (zero_or_absent parse_int timed) time_keys = false
  /\ exists deadline,
       env_deadline parse_int timed (flt 0) = Ok deadline.
Proof.
  intros env timed. split; [reflexivity|].
  destruct (exit_env_vars_registers_in_order parse_int env (world0 (flt 0))
              eq_refl) as (H & _).
  split; [exact H|]. split; [reflexivity|].
  destruct (exit_env_vars_registers_in_order parse_int timed (world0 (flt 0))
              eq_refl) as (_ & Hd & _).
  apply Hd. reflexivity.
Defined.

Lemma exit_env_vars_counter_runs_witness :
  let env : gmap string string := {[ "JUG_MAX_TASKS" := "2" ]} in
  let w' := snd (exit_env_vars parse_int (Some env) (world0 (flt 0))) in
  parse_int "2" = Some 2
  /\ fst (run_events 8 (exit_after O 2) (repeat event0 3) w')
     = (2%nat, Raise (SystemExit 0)).
Proof.
  intros env w'. split; [reflexivity|].
  destruct (exit_env_vars_counter_runs parse_int env (world0 (flt 0)) "2" 2 8
              (repeat event0 3) eq_refl eq_refl) as [_ H].
  set (x := run_events 8 (exit_after O 2) (repeat event0 3) w').
  change (let '(k, r, _) := x in
          if Z.of_nat (length (repeat event0 3)) <? Z.max 1 2
          then k = length (repeat event0 3) /\ r = Ok tt
          else Z.of_nat k = Z.max 1 2 /\ r = Raise (SystemExit 0)) in H.
  destruct x as [[k r] w1]. cbn in H. destruct H as [Hk Hr]. cbn [fst].
  rewrite Hr. replace k with 2%nat by lia. reflexivity.
Defined.

(** With the reader of decimal literals: a numeric key that is set to
    white space makes [exit_env_vars] raise [ValueError]. *)
Lemma exit_env_vars_blank_decimal (env : gmap string string) (w : World)
    (key s : string) :
  key ∈ numeric_keys -> env !! key = Some s -> all_blank s = true ->
  let '(r, w') := exit_env_vars parse_int (Some env) w in
  r = Raise ValueError
  /\ watchers is_deadline (installed w w') = []
  /\ watchers is_file_marker (installed w w') = [].
Proof.
  intros Hkey Hs Hblank. apply (invalid_number_raises parse_int env w key Hkey).
  unfold invalid. rewrite Hs. by rewrite parse_int_blank.
Qed.

Lemma exit_env_vars_blank_number_witness :
  let env : gmap string string := {[ "JUG_MAX_HOURS" := " " ]} in
  all_blank " " = true
  /\ fst (exit_env_vars parse_int (Some env) (world0 (flt 0)))
     = Raise ValueError.
Proof.
  intros env. split; [reflexivity|].
  assert (Hkey : "JUG_MAX_HOURS" ∈ numeric_keys)
    by (unfold numeric_keys, time_keys; repeat constructor).
  pose proof (exit_env_vars_blank_number parse_int env (world0 (flt 0))
                "JUG_MAX_HOURS" " " parse_int_blank Hkey eq_refl eq_refl) as H.
  destruct (exit_env_vars parse_int (Some env) (world0 (flt 0))) as [r w'].
  exact (proj1 H).
Defined.

Lemma pre_execute_after_exit_env_vars_witness :
  let env : gmap string string := {[ "JUG_EXIT_IF_FILE_EXISTS" := "stop" ]} in
  let ev :=
    {| ev_time := flt 0; ev_files := String.eqb "stop"; ev_task := 7%nat |} in
  let w' :=
    at_event ev (snd (exit_env_vars parse_int (Some env) (world0 (flt 0)))) in
  fst (exit_env_vars parse_int (Some env) (world0 (flt 0))) = Ok tt
  /\ jug_hook 8 "execute.task-pre-execute" 7%nat w'
     = (Raise (SystemExit 0), w').
Proof.
  intros env ev w'. split; [reflexivity|].
  exact (pre_execute_after_exit_env_vars parse_int env (world0 (flt 0)) 8 ev
           eq_refl eq_refl).
Defined.

Lemma post_execute_after_exit_env_vars_witness :
  let env : gmap string string := {[ "JUG_MAX_TASKS" := "1" ]} in
  let w' :=
    at_event (event_at (flt 0))
      (snd (exit_env_vars parse_int (Some env) (world0 (flt 0)))) in
  fst (exit_env_vars parse_int (Some env) (world0 (flt 0))) = Ok tt
  /\ fst (jug_hook 8 "execute.task-executed1" 7%nat w')
     = Raise (SystemExit 0).
Proof.
  intros env w'. split; [reflexivity|].
  exact (post_execute_after_exit_env_vars parse_int env (world0 (flt 0)) 8
           (event_at (flt 0)) eq_refl eq_refl).
Defined.
